(** * The page view of tabby-ui: stream reducer, pagination merge, controller

    A shallow embedding of [ee/tabby-ui/app/pages/components/page-main.tsx].
    The React component [Page] keeps its state in [useState] cells and one
    [useRef]; the embedding gathers them in the record [State], and every
    [setX(...)] call becomes a function on [State].  React applies the updates
    queued by one callback in the order they were queued, so a callback is the
    composition of its setters.  Values that a callback reads from the render
    it was created in (its closure) are explicit arguments. *)

From stdpp Require Import gmap strings list.

(** ** Data model *)

(** JavaScript truthiness of an optional string ([!!s], [if (s)]). *)
Definition truthy (s : option string) : bool :=
  match s with
  | Some v => negb (String.eqb v "")
  | None => false
  end.

(** [PageItem] of [../types]; [__typename] is absent on the object built by
    the [PageCreated] arm and present afterwards. *)
Module PageItem.
Record t := mk {
  __typename : option string;
  id : string;
  authorId : string;
  title : string;
  content : string;
  updatedAt : string;
  createdAt : string
}.
End PageItem.

(** [SectionItem] of [../types].  [pageId] is written with the cast
    [pageId as string], which does nothing at run time: the field holds
    whatever the closure's [pageId] is, possibly [undefined]. *)
Module SectionItem.
Record t := mk {
  __typename : option string;
  id : string;
  title : string;
  pageId : option string;
  content : string
}.
End SectionItem.

(** The union [CreateThreadToPageRunSubscription['createThreadToPageRun']],
    discriminated by [__typename]; [Unrecognized] stands for every tag that
    reaches the [default] arm. *)
Inductive StreamEvent :=
| PageCreated (id authorId title : string)
| PageContentDelta (delta : string)
| PageContentCompleted (id : string)
| PageSectionsCreated (sections : list (string * string))
| PageSectionContentDelta (id delta : string)
| PageSectionContentCompleted (id : string)
| PageCompleted (id : string)
| Unrecognized (typename : string).

(** The state cells of [Page] that the reducer, the merger and the controller
    touch.  [unsubscribeFn] is the ref holding the handle of the open
    subscription (the thread id it was opened for); [navigations] logs the
    path names handed to [updateUrlComponents] and [toasts] the messages
    handed to [toast.error], oldest first. *)
Record State := mkState {
  pageId : option string;
  page : option PageItem.t;
  sections : option (list SectionItem.t);
  isGeneratingPageContent : bool;
  pendingSectionIds : gset string;
  currentSectionId : option string;
  isLoading : bool;
  isReady : bool;
  error : option string;
  afterCursor : option string;
  unsubscribeFn : option string;
  navigations : list string;
  toasts : list string
}.

(** ** The setters

    [setX v] is [setX_with (fun _ => v)]; [setX_with f] is the functional
    form [setX(prev => f prev)]. *)

Definition setPageId (v : option string) (s : State) : State :=
  mkState v (page s) (sections s) (isGeneratingPageContent s)
    (pendingSectionIds s) (currentSectionId s) (isLoading s) (isReady s)
    (error s) (afterCursor s) (unsubscribeFn s) (navigations s) (toasts s).

Definition setPage_with (f : option PageItem.t -> option PageItem.t)
    (s : State) : State :=
  mkState (pageId s) (f (page s)) (sections s) (isGeneratingPageContent s)
    (pendingSectionIds s) (currentSectionId s) (isLoading s) (isReady s)
    (error s) (afterCursor s) (unsubscribeFn s) (navigations s) (toasts s).

Definition setPage (v : option PageItem.t) : State -> State :=
  setPage_with (fun _ => v).

Definition setSections_with
    (f : option (list SectionItem.t) -> option (list SectionItem.t))
    (s : State) : State :=
  mkState (pageId s) (page s) (f (sections s)) (isGeneratingPageContent s)
    (pendingSectionIds s) (currentSectionId s) (isLoading s) (isReady s)
    (error s) (afterCursor s) (unsubscribeFn s) (navigations s) (toasts s).

Definition setSections (v : option (list SectionItem.t)) : State -> State :=
  setSections_with (fun _ => v).

Definition setIsGeneratingPageContent (v : bool) (s : State) : State :=
  mkState (pageId s) (page s) (sections s) v
    (pendingSectionIds s) (currentSectionId s) (isLoading s) (isReady s)
    (error s) (afterCursor s) (unsubscribeFn s) (navigations s) (toasts s).

Definition setPendingSectionIds_with (f : gset string -> gset string)
    (s : State) : State :=
  mkState (pageId s) (page s) (sections s) (isGeneratingPageContent s)
    (f (pendingSectionIds s)) (currentSectionId s) (isLoading s) (isReady s)
    (error s) (afterCursor s) (unsubscribeFn s) (navigations s) (toasts s).

Definition setPendingSectionIds (v : gset string) : State -> State :=
  setPendingSectionIds_with (fun _ => v).

Definition setCurrentSectionId (v : option string) (s : State) : State :=
  mkState (pageId s) (page s) (sections s) (isGeneratingPageContent s)
    (pendingSectionIds s) v (isLoading s) (isReady s)
    (error s) (afterCursor s) (unsubscribeFn s) (navigations s) (toasts s).

Definition setIsLoading (v : bool) (s : State) : State :=
  mkState (pageId s) (page s) (sections s) (isGeneratingPageContent s)
    (pendingSectionIds s) (currentSectionId s) v (isReady s)
    (error s) (afterCursor s) (unsubscribeFn s) (navigations s) (toasts s).

Definition setIsReady (v : bool) (s : State) : State :=
  mkState (pageId s) (page s) (sections s) (isGeneratingPageContent s)
    (pendingSectionIds s) (currentSectionId s) (isLoading s) v
    (error s) (afterCursor s) (unsubscribeFn s) (navigations s) (toasts s).

Definition setError (v : option string) (s : State) : State :=
  mkState (pageId s) (page s) (sections s) (isGeneratingPageContent s)
    (pendingSectionIds s) (currentSectionId s) (isLoading s) (isReady s)
    v (afterCursor s) (unsubscribeFn s) (navigations s) (toasts s).

Definition setAfterCursor (v : option string) (s : State) : State :=
  mkState (pageId s) (page s) (sections s) (isGeneratingPageContent s)
    (pendingSectionIds s) (currentSectionId s) (isLoading s) (isReady s)
    (error s) v (unsubscribeFn s) (navigations s) (toasts s).

(** [unsubscribeFn.current = v] *)
Definition setUnsubscribeFn (v : option string) (s : State) : State :=
  mkState (pageId s) (page s) (sections s) (isGeneratingPageContent s)
    (pendingSectionIds s) (currentSectionId s) (isLoading s) (isReady s)
    (error s) (afterCursor s) v (navigations s) (toasts s).

(** [updateUrlComponents({ pathname, replace: true })] *)
Definition updateUrlComponents (pathname : string) (s : State) : State :=
  mkState (pageId s) (page s) (sections s) (isGeneratingPageContent s)
    (pendingSectionIds s) (currentSectionId s) (isLoading s) (isReady s)
    (error s) (afterCursor s) (unsubscribeFn s)
    (navigations s ++ [pathname]) (toasts s).

(** [toast.error(msg)] *)
Definition toast_error (msg : string) (s : State) : State :=
  mkState (pageId s) (page s) (sections s) (isGeneratingPageContent s)
    (pendingSectionIds s) (currentSectionId s) (isLoading s) (isReady s)
    (error s) (afterCursor s) (unsubscribeFn s)
    (navigations s) (toasts s ++ [msg]).

(** The [useState] initial values; [isReady] starts as [!!pendingThreadId]. *)
Definition initialState (pendingThreadId : option string) : State :=
  {| pageId := None; page := None; sections := None;
     isGeneratingPageContent := false; pendingSectionIds := ∅;
     currentSectionId := None; isLoading := false;
     isReady := truthy pendingThreadId; error := None; afterCursor := None;
     unsubscribeFn := None; navigations := []; toasts := [] |}.

(** ** Stream event reducer *)

(** lodash's [compact] on strings: drops the falsy (empty) ones. *)
Definition compact (l : list string) : list string :=
  List.filter (fun s => negb (String.eqb s "")) l.

(** The updater of the [PageContentDelta] arm. *)
Definition appendPageContent (delta : string)
    (prev : option PageItem.t) : option PageItem.t :=
  match prev with
  | None => prev
  | Some p =>
      Some (PageItem.mk
              (match PageItem.__typename p with
               | Some t => Some t
               | None => Some "Page"
               end)
              (PageItem.id p) (PageItem.authorId p) (PageItem.title p)
              (PageItem.content p +:+ delta)
              (PageItem.updatedAt p) (PageItem.createdAt p))
  end.

(** The updater of the [PageSectionContentDelta] arm: [find], then [map].
    [content] is a string, on which [x.content || ''] is the identity. *)
Definition appendSectionContent (id delta : string)
    (prev : option (list SectionItem.t)) : option (list SectionItem.t) :=
  match prev with
  | None => prev
  | Some l =>
      match List.find (fun x => String.eqb (SectionItem.id x) id) l with
      | None => prev
      | Some _ =>
          Some (List.map
                  (fun x =>
                     if String.eqb (SectionItem.id x) id
                     then SectionItem.mk (SectionItem.__typename x)
                            (SectionItem.id x) (SectionItem.title x)
                            (SectionItem.pageId x)
                            (SectionItem.content x +:+ delta)
                     else x)
                  l)
      end
  end.

(** The updater of the [PageSectionContentCompleted] arm. *)
Definition removePending (id : string) (prev : gset string) : gset string :=
  if negb (bool_decide (id ∈ prev)) then prev else prev ∖ {[id]}.

(** [stop]: drop the subscription, then reset the streaming flags.  The page
    and the section list are not written. *)
Definition stop (s : State) : State :=
  setCurrentSectionId None
    (setPendingSectionIds ∅
       (setIsGeneratingPageContent false
          (setIsLoading false
             (setUnsubscribeFn None s)))).

Section Reducer.

(** [slugify] of [@sindresorhus/slugify], used only to build the URL. *)
Variable slugify : string -> string.

Definition updatePageURL (p : PageItem.t) (s : State) : State :=
  let slug := slugify (PageItem.title p) in
  let slugWithPageId := String.concat "-" (compact [slug; PageItem.id p]) in
  updateUrlComponents ("/pages/" +:+ slugWithPageId) s.

(** [processPageStream].  [closurePageId] is the [pageId] of the render in
    which the subscription was opened (the subscriber keeps that closure for
    the whole stream); [now] is [new Date().toISOString()].

    The [PageSectionContentDelta] arm has no [break]: control runs on into
    the [PageSectionContentCompleted] arm with the same [data.id]. *)
Definition processPageStream (closurePageId : option string) (now : string)
    (data : StreamEvent) (s : State) : State :=
  match data with
  | PageCreated id authorId title =>
      let nextPage := PageItem.mk None id authorId title "" now now in
      updatePageURL nextPage
        (setIsGeneratingPageContent true
           (setPage (Some nextPage)
              (setPageId (Some id) s)))
  | PageContentDelta delta =>
      setPage_with (appendPageContent delta) s
  | PageContentCompleted _ =>
      setIsGeneratingPageContent false s
  | PageSectionsCreated secs =>
      let nextSections :=
        List.map (fun x => SectionItem.mk (Some "Section") (fst x) (snd x)
                             closurePageId "") secs in
      setSections (Some nextSections)
        (setPendingSectionIds (list_to_set (List.map fst secs)) s)
  | PageSectionContentDelta id delta =>
      setPendingSectionIds_with (removePending id)
        (setSections_with (appendSectionContent id delta)
           (setCurrentSectionId (Some id) s))
  | PageSectionContentCompleted id =>
      setPendingSectionIds_with (removePending id) s
  | PageCompleted _ =>
      stop s
  | Unrecognized _ =>
      s
  end.

(** The subscriber applied to a whole delivery: the events in order, the
    k-th one (counting from [tick]) stamped [clock k].  Events listed after a
    [PageCompleted] are applied like the others; the transport, once
    unsubscribed, would not deliver them. *)
Fixpoint processAll (closurePageId : option string) (clock : nat -> string)
    (tick : nat) (events : list StreamEvent) (s : State) : State :=
  match events with
  | [] => s
  | e :: rest =>
      processAll closurePageId clock (S tick) rest
        (processPageStream closurePageId (clock tick) e s)
  end.

End Reducer.

(** ** Pagination merger *)

(** Modelled from the spec: lodash's [uniqBy] is a library function outside
    the repository; it keeps, for every value of the iteratee, the first
    element of the array that has it, in the order of the array
    ("deduplicated by id, preserving the first occurrence's position").
    [seen] collects the iteratee values met so far. *)
Fixpoint uniqBy_go {A} (iteratee : A -> string) (seen : gset string)
    (array : list A) : list A :=
  match array with
  | [] => []
  | x :: rest =>
      if bool_decide (iteratee x ∈ seen)
      then uniqBy_go iteratee seen rest
      else x :: uniqBy_go iteratee ({[iteratee x]} ∪ seen) rest
  end.

Definition uniqBy {A} (iteratee : A -> string) (array : list A) : list A :=
  uniqBy_go iteratee ∅ array.

(** The updater [prev => uniqBy([...(prev || []), ...messages], 'id')]. *)
Definition mergeSections (messages : list SectionItem.t)
    (prev : option (list SectionItem.t)) : option (list SectionItem.t) :=
  Some (uniqBy SectionItem.id (default [] prev ++ messages)).

Record PageInfo := mkPageInfo {
  hasNextPage : bool;
  endCursor : option string
}.

(** [pageSectionData.pageSections]: the nodes of the edges, and the page info. *)
Record PageSections := mkPageSections {
  edges : list SectionItem.t;
  pageInfo : PageInfo
}.

(** What [useQuery(listPageSections)] hands to a render.  [pageSectionData]
    is [None] when the data, or its [pageSections] field, is missing. *)
Record SectionsQuery := mkSectionsQuery {
  pageSectionData : option PageSections;
  pageSectionsError : option string;
  pageSectionsStale : bool
}.

(** The effect on [[pageSectionData]]. *)
Definition sectionsDataEffect (q : SectionsQuery) (s : State) : State :=
  if pageSectionsStale q then s
  else
    match pageSectionData q with
    | None => s
    | Some d =>
        let s1 :=
          if negb (Nat.eqb (length (edges d)) 0)
          then setSections_with (mergeSections (edges d)) s
          else s in
        if hasNextPage (pageInfo d) && truthy (endCursor (pageInfo d))
        then setAfterCursor (endCursor (pageInfo d)) s1
        else setIsReady true s1
    end.

(** The effect on [[pageSectionsError]]; [isReady] is read from the render
    the effect belongs to. *)
Definition sectionsErrorEffect (renderIsReady : bool) (q : SectionsQuery)
    (s : State) : State :=
  if bool_decide (is_Some (pageSectionsError q)) && negb renderIsReady
  then setIsReady true s
  else s.

(** The two effects after a render of state [s] with query result [q], in
    the order the component declares them; each runs when its dependency
    changed since the previous render. *)
Definition effectsAfterRender (dataChanged errorChanged : bool)
    (q : SectionsQuery) (s : State) : State :=
  let s1 := if dataChanged then sectionsDataEffect q s else s in
  if errorChanged then sectionsErrorEffect (isReady s) q s1 else s1.

(** The [pause] option of the sections query: no request goes out while it
    holds. *)
Definition sectionsQueryPaused (pageIdFromURL : option string)
    (s : State) : bool :=
  negb (truthy pageIdFromURL) || isReady s.

(** ** Deleting a section *)

(** How the promise of [deletePageSection({ sectionId })] settles: with a
    result ([data], whose [data] field holds [deletePageSection]), either of
    which may be missing, or by rejection. *)
Inductive MutationOutcome :=
| Resolved (data : option (option bool))
| Rejected.

(** [data?.data?.deletePageSection] as a condition. *)
Definition deleteConfirmed (data : option (option bool)) : bool :=
  match data with
  | Some (Some b) => b
  | _ => false
  end.

(** [onDeleteSection].  [closureSections] is the [sections] of the render the
    handler was created in; [s] is the state when the promise settles.  A
    rejected promise has no handler. *)
Definition onDeleteSection (pageIdFromURL : option string)
    (closureSections : option (list SectionItem.t)) (sectionId : string)
    (outcome : MutationOutcome) (s : State) : State :=
  if negb (truthy pageIdFromURL) then s
  else
    match outcome with
    | Rejected => s
    | Resolved data =>
        if deleteConfirmed data
        then
          let nextSections :=
            option_map
              (List.filter
                 (fun x => negb (String.eqb (SectionItem.id x) sectionId)))
              closureSections in
          setSections nextSections s
        else toast_error "Failed to delete" s
    end.

(** ** Scenarios of the specification *)

Definition scenario1 : list StreamEvent :=
  [ PageCreated "1" "u" "T"; PageContentDelta "Hel"; PageContentDelta "lo";
    PageContentCompleted "1"; PageSectionsCreated [("s1", "A")];
    PageSectionContentDelta "s1" "Hi"; PageSectionContentCompleted "s1";
    PageCompleted "1" ].

(** The state in the middle of scenario 1, after [PageSectionsCreated]:
    section [s1] exists, is empty, and is pending. *)
Definition midStream : State :=
  {| pageId := Some "1";
     page := Some (PageItem.mk (Some "Page") "1" "u" "T" "Hello" "t0" "t0");
     sections := Some [SectionItem.mk (Some "Section") "s1" "A" None ""];
     isGeneratingPageContent := false; pendingSectionIds := {["s1"]};
     currentSectionId := None; isLoading := true; isReady := true;
     error := None; afterCursor := None; unsubscribeFn := Some "thread";
     navigations := ["/pages/t-1"]; toasts := [] |}.

(** ** Delivery order and causal order of a stream *)

(** The deltas of the [PageContentDelta] events, in delivery order. *)
Fixpoint pageDeltas (events : list StreamEvent) : list string :=
  match events with
  | [] => []
  | PageContentDelta delta :: rest => delta :: pageDeltas rest
  | _ :: rest => pageDeltas rest
  end.

(** The deltas of the [PageSectionContentDelta] events that carry [id], in
    delivery order. *)
Fixpoint sectionDeltas (id : string) (events : list StreamEvent)
    : list string :=
  match events with
  | [] => []
  | PageSectionContentDelta id' delta :: rest =>
      if String.eqb id' id then delta :: sectionDeltas id rest
      else sectionDeltas id rest
  | _ :: rest => sectionDeltas id rest
  end.

(** Concatenation of fragments, first to last. *)
Definition joinAll (fragments : list string) : string :=
  foldr String.append "" fragments.

(** Causal order, checked along the sequence: an entity is created before
    its content arrives.  [pageSet] tells whether a [PageCreated] has been
    delivered, [pageStreamed] whether a [PageContentDelta] has, and
    [streamed] holds the section ids for which a [PageSectionContentDelta]
    has.
    - [PageCreated] may not follow content of the page;
    - [PageContentDelta] needs the page to have been created;
    - [PageSectionsCreated] may not name a section whose content has already
      started to arrive (every creation of a section precedes every content
      event of that section).
    Nothing else is demanded: completion events, unknown events and deltas
    for sections nobody created may come at any point, and page events need
    not all come before the section events.  A sequence in which page events
    precede section events, starting with the one [PageCreated], and in
    which each section is created once, before its content, passes. *)
Fixpoint causalFrom (pageSet pageStreamed : bool) (streamed : gset string)
    (events : list StreamEvent) : bool :=
  match events with
  | [] => true
  | PageCreated _ _ _ :: rest =>
      negb pageStreamed && causalFrom true pageStreamed streamed rest
  | PageContentDelta _ :: rest =>
      pageSet && causalFrom pageSet true streamed rest
  | PageSectionsCreated secs :: rest =>
      forallb (fun x => negb (bool_decide (fst x ∈ streamed))) secs
      && causalFrom pageSet pageStreamed streamed rest
  | PageSectionContentDelta id _ :: rest =>
      causalFrom pageSet pageStreamed ({[id]} ∪ streamed) rest
  | _ :: rest => causalFrom pageSet pageStreamed streamed rest
  end.

Definition causal (events : list StreamEvent) : bool :=
  causalFrom false false ∅ events.

(** Whether the sequence holds a [PageCreated]. *)
Definition hasPageCreated (events : list StreamEvent) : bool :=
  existsb (fun e => match e with PageCreated _ _ _ => true | _ => false end)
    events.

(** The ids named by the last [PageSectionsCreated] of the sequence, or
    [current] when there is none. *)
Fixpoint lastSectionsCreated (current : option (list string))
    (events : list StreamEvent) : option (list string) :=
  match events with
  | [] => current
  | PageSectionsCreated secs :: rest =>
      lastSectionsCreated (Some (List.map fst secs)) rest
  | _ :: rest => lastSectionsCreated current rest
  end.

(** What links the state to the events delivered so far ([hist]) and to the
    bookkeeping of [causalFrom]: the page, when set, holds the page deltas
    joined, and every section of the list holds the joined deltas of its
    id. *)
Definition streamInv (hist : list StreamEvent) (pageSet pageStreamed : bool)
    (streamed : gset string) (s : State) : Prop :=
  (pageSet = true -> is_Some (page s)) /\
  match page s with
  | Some p => PageItem.content p = joinAll (pageDeltas hist)
  | None => pageDeltas hist = []
  end /\
  (pageStreamed = false -> pageDeltas hist = []) /\
  (forall id, id ∉ streamed -> sectionDeltas id hist = []) /\
  Forall
    (fun x =>
       SectionItem.content x = joinAll (sectionDeltas (SectionItem.id x) hist))
    (default [] (sections s)).

(** Scenario 5: two pages of historical records that share the id ["b"]; the
    two records for ["b"] differ in content, so that one can tell which is
    kept. *)
Definition historical (id content : string) : SectionItem.t :=
  SectionItem.mk (Some "Section") id id (Some "p") content.

Definition page1 : list SectionItem.t :=
  [historical "a" "one"; historical "b" "first"].

Definition page2 : list SectionItem.t :=
  [historical "b" "second"; historical "c" "three"].

(** A view that has merged [page1] and waits for the next page. *)
Definition loadingHistorical : State :=
  {| pageId := Some "p"; page := None; sections := Some page1;
     isGeneratingPageContent := false; pendingSectionIds := ∅;
     currentSectionId := None; isLoading := false; isReady := false;
     error := None; afterCursor := Some "cursor1"; unsubscribeFn := None;
     navigations := []; toasts := [] |}.

(** A fetch that failed: an error and no data. *)
Definition failedFetch : SectionsQuery :=
  {| pageSectionData := None; pageSectionsError := Some "Failed to fetch";
     pageSectionsStale := false |}.

(** ** The page id in the URL

    Strings stand for their UTF-8 encoding; the characters that matter here
    (["/"], ["-"], the line terminators) keep their meaning byte by byte. *)

(** Whether [s] starts with one of the characters the regular expression's
    [.] refuses: line feed, carriage return, U+2028, U+2029 (the last two
    are the bytes E2 80 A8 and E2 80 A9). *)
Definition startsWithLineTerminator (s : string) : bool :=
  match s with
  | String c rest =>
      match Ascii.nat_of_ascii c with
      | 10 | 13 => true
      | 226 =>
          match rest with
          | String c1 (String c2 _) =>
              Nat.eqb (Ascii.nat_of_ascii c1) 128
              && (Nat.eqb (Ascii.nat_of_ascii c2) 168
                  || Nat.eqb (Ascii.nat_of_ascii c2) 169)
          | _ => false
          end
      | _ => false
      end
  | EmptyString => false
  end.

(** What the greedy capture group (any characters, as many as possible)
    takes: everything up to the first line terminator. *)
Fixpoint takeLine (s : string) : string :=
  match s with
  | EmptyString => EmptyString
  | String c rest =>
      if startsWithLineTerminator s then EmptyString
      else String c (takeLine rest)
  end.

(** The anchored literal prefix of the regular expression. *)
Fixpoint stripPrefix (prefix s : string) : option string :=
  match prefix, s with
  | EmptyString, _ => Some s
  | String a prefix', String b s' =>
      if Ascii.eqb a b then stripPrefix prefix' s' else None
  | String _ _, EmptyString => None
  end.

(** [s.split(sep)] for a one-character separator: never an empty array. *)
Fixpoint split (sep : Ascii.ascii) (s : string) : list string :=
  match s with
  | EmptyString => [EmptyString]
  | String c rest =>
      if Ascii.eqb c sep then EmptyString :: split sep rest
      else
        match split sep rest with
        | head :: tail => String c head :: tail
        | [] => [String c EmptyString]
        end
  end.

(** The character ["-"]. *)
Definition dash : Ascii.ascii := Ascii.ascii_of_nat 45.

Fixpoint contains (c : Ascii.ascii) (s : string) : bool :=
  match s with
  | EmptyString => false
  | String a rest => Ascii.eqb a c || contains c rest
  end.

(** The memo [pageIdFromURL]: nothing for a falsy path name; otherwise the
    capture of the regular expression (the rest of the line after a leading
    ["/pages/"]), [split('-')], [pop()]. *)
Definition pageIdFromURL (activePathname : option string) : option string :=
  if negb (truthy activePathname) then None
  else
    match activePathname with
    | None => None
    | Some pathname =>
        match stripPrefix "/pages/" pathname with
        | None => None
        | Some rest => last (split dash (takeLine rest))
        end
    end.

(** ** The subscriber of [convertThreadToPage] *)

(** One result of the subscription: [res.error] and
    [res.data?.createThreadToPageRun]. *)
Record SubscriptionResult := mkSubscriptionResult {
  res_error : option string;
  res_value : option StreamEvent
}.

(** The callback given to [subscribe].  On an error it calls the local
    [unsubscribe], which closes the transport; the ref [unsubscribeFn] is not
    written. *)
Definition subscriber (slugify : string -> string)
    (closurePageId : option string) (now : string)
    (res : SubscriptionResult) (s : State) : State :=
  match res_error res with
  | Some e => setError (Some e) (setIsLoading false s)
  | None =>
      match res_value res with
      | None => s
      | Some value => processPageStream slugify closurePageId now value s
      end
  end.

(** ** Starting the conversion *)

(** The view together with the ref [initializing] and the pending thread id
    of the page store. *)
Record Controller := mkController {
  viewState : State;
  initializing : bool;
  storePendingThreadId : option string
}.

(** The effect on [[isPathnameInitialized]] with its inner [init].
    [pendingThreadId] is the value the render read from the store. *)
Definition initEffect (isPathnameInitialized : bool)
    (pageIdFromURL : option string) (pendingThreadId : option string)
    (c : Controller) : Controller :=
  if isPathnameInitialized && negb (truthy pageIdFromURL)
  then
    if initializing c then c
    else
      if truthy pendingThreadId
      then
        mkController
          (setUnsubscribeFn pendingThreadId
             (setError None (setIsLoading true (viewState c))))
          true None
      else mkController (viewState c) true (storePendingThreadId c)
  else c.

(** ** What is rendered *)

(** [isSectionGenerating] of the section loop. *)
Definition isSectionGenerating (s : State) (section : SectionItem.t) : bool :=
  isLoading s
  && match currentSectionId s with
     | Some id => String.eqb (SectionItem.id section) id
     | None => false
     end.

Inductive View :=
| NotFoundPage
| ErrorPanel
| MessagesSkeleton
| PageBody.

(** [formatThreadRunErrorMessage] reads [error.message] and, of every entry
    of [error.graphQLErrors], [extensions?.code]. *)
Record ExtendedCombinedError := mkExtendedCombinedError {
  message : string;
  graphQLErrors : list (option string)
}.

Section Constants.

(** [ERROR_CODE_NOT_FOUND] of [@/lib/constants], which is not among the
    sources. *)
Variable ERROR_CODE_NOT_FOUND : string.

(** [ErrorView], by the message of its error. *)
Definition ErrorView (errorMessage : string) : View :=
  if String.eqb errorMessage ERROR_CODE_NOT_FOUND then NotFoundPage
  else ErrorPanel.

(** The returns of [Page].  [formatedThreadError] is the constant
    [undefined]; [isFetchingPageSections] is the debounced flag. *)
Definition render (q : SectionsQuery) (isFetchingPageSections : bool)
    (s : State) : View :=
  match pageSectionsError q with
  | Some e =>
      if isReady s then ErrorView e
      else if negb (isReady s) && (isFetchingPageSections || pageSectionsStale q)
      then MessagesSkeleton
      else PageBody
  | None =>
      if negb (isReady s) && (isFetchingPageSections || pageSectionsStale q)
      then MessagesSkeleton
      else PageBody
  end.

Definition formatThreadRunErrorMessage
    (error : option ExtendedCombinedError) : string :=
  match error with
  | None => "Failed to fetch"
  | Some e =>
      if String.eqb (message e) "401" then "Unauthorized"
      else if existsb
                (fun code =>
                   match code with
                   | Some c => String.eqb c ERROR_CODE_NOT_FOUND
                   | None => false
                   end)
                (graphQLErrors e)
      then "The thread has expired or does not exist."
      else if String.eqb (message e) "" then "Failed to fetch"
      else message e
  end.

End Constants.

(** ** Ownership and the header menu *)

(** The memo [isPageOwner]: [meId] is [meData.me.id] when [meData] is there,
    [firstPageAuthorId] is [pagesData?.pages.edges?.[0].node.authorId]. *)
Definition isPageOwner (meId : option string) (pageIdFromURL : option string)
    (firstPageAuthorId : option string) : bool :=
  match meId with
  | None => false
  | Some me =>
      if negb (truthy pageIdFromURL) then true
      else
        match firstPageAuthorId with
        | None => false
        | Some author => String.eqb me author
        end
  end.

Inductive Mode := edit | view.

(** The props of [Header]; both are optional. *)
Record HeaderProps := mkHeaderProps {
  props_pageIdFromURL : option string;
  streamingDone : option bool
}.

(** Whether [Header] puts the "Add new page" item in its menu. *)
Definition addNewPageOffered (mode : Mode) (props : HeaderProps) : bool :=
  match mode with
  | edit => false
  | view =>
      default false (streamingDone props)
      && truthy (props_pageIdFromURL props)
  end.

(** Whether [Header] puts the "Delete Page" dialog in its menu. *)
Definition deletePageOffered (mode : Mode) (contextIsPageOwner : bool)
    (props : HeaderProps) : bool :=
  match mode with
  | edit => false
  | view =>
      default false (streamingDone props)
      && truthy (props_pageIdFromURL props)
      && contextIsPageOwner
  end.

(** The header of the page body:
    [<Header pageIdFromURL={pageIdFromURL} streamingDone={!isLoading} />]. *)
Definition pageBodyHeaderProps (pageIdFromURL : option string) (s : State)
    : HeaderProps :=
  mkHeaderProps pageIdFromURL (Some (negb (isLoading s))).

(** ** Deleting the page, in [Header] *)






(** ** Vocabulary for runs of the reducer *)

(** Whether the sequence holds a [PageSectionsCreated]. *)
Definition hasSectionsCreated (events : list StreamEvent) : bool :=
  existsb
    (fun e => match e with PageSectionsCreated _ => true | _ => false end)
    events.

(** [x] with [more] appended to its content. *)
Definition withAppended (more : string) (x : SectionItem.t) : SectionItem.t :=
  SectionItem.mk (SectionItem.__typename x) (SectionItem.id x)
    (SectionItem.title x) (SectionItem.pageId x)
    (SectionItem.content x +:+ more).

(** Every pending id names a section of the list. *)
Definition pendingNamesSections (s : State) : Prop :=
  forall id, id ∈ pendingSectionIds s ->
             id ∈ SectionItem.id <$> default [] (sections s).

(** The path names [updatePageURL] builds for the [PageCreated] events of a
    sequence, in order. *)
Fixpoint createdPaths (slugify : string -> string)
    (events : list StreamEvent) : list string :=
  match events with
  | [] => []
  | PageCreated id _ title :: rest =>
      ("/pages/" +:+ String.concat "-" (compact [slugify title; id]))
      :: createdPaths slugify rest
  | _ :: rest => createdPaths slugify rest
  end.

(** * Properties *)

(** ** Basic facts on the setters and updaters *)

Lemma removePending_spec id (prev : gset string) :
  removePending id prev = prev ∖ {[id]}.
Proof.
  unfold removePending. destruct (decide (id ∈ prev)) as [Hin|Hout].
  - by rewrite bool_decide_eq_true_2.
  - rewrite bool_decide_eq_false_2 by done. simpl.
    apply set_eq. intros x. rewrite elem_of_difference, elem_of_singleton.
    split; [|tauto]. intros Hx. split; [done|]. by intros ->.
Qed.

Lemma removePending_absent id (prev : gset string) :
  id ∉ prev -> removePending id prev = prev.
Proof.
  intros Hid. unfold removePending. by rewrite bool_decide_eq_false_2.
Qed.

Lemma find_none_no_id id (l : list SectionItem.t) :
  (forall x, x ∈ l -> SectionItem.id x <> id) ->
  List.find (fun x => String.eqb (SectionItem.id x) id) l = None.
Proof.
  induction l as [|y l IH]; intros Hl; simpl; [done|].
  destruct (String.eqb_spec (SectionItem.id y) id) as [Heq|Hne].
  - exfalso. apply (Hl y); [left|done].
  - apply IH. intros x Hx. apply Hl. by right.
Qed.

Section ReducerProperties.

Variable slugify : string -> string.
Variable closurePageId : option string.

Local Abbreviation process := (processPageStream slugify closurePageId).
Local Abbreviation run := (processAll slugify closurePageId).

(** C1.  The [PageSectionContentDelta] arm appends the delta and records the
    current section, and then falls through into the completion arm: after
    the event the id is no longer pending, in every state.  At [midStream],
    where ["s1"] exists and is pending, the delta ["Hi"] gives content
    ["Hi"], current section ["s1"] and an empty pending-set. *)
Theorem delta_falls_through_to_completed :
  (forall now id delta s,
      pendingSectionIds (process now (PageSectionContentDelta id delta) s)
      = pendingSectionIds s ∖ {[id]}) /\
  "s1" ∈ pendingSectionIds midStream /\
  (forall now,
      let s' := process now (PageSectionContentDelta "s1" "Hi") midStream in
      sections s' = Some [SectionItem.mk (Some "Section") "s1" "A" None "Hi"] /\
      currentSectionId s' = Some "s1" /\
      ("s1" ∉ pendingSectionIds s') /\
      pendingSectionIds s' = ∅).
Proof.
  split; [|split].
  - intros. simpl. apply removePending_spec.
  - simpl. set_solver.
  - intros now. cbn. rewrite removePending_spec.
    repeat split; try done; set_solver.
Qed.

(** C2.  Scenario 1, folded from the initial state, ends with page content
    ["Hello"], an empty pending-set and the single section [s1] titled
    ["A"] with content ["Hi"]. *)
Theorem scenario1_final_state (pendingThreadId : option string)
    (clock : nat -> string) :
  let final := run clock 0 scenario1 (initialState pendingThreadId) in
  (PageItem.content <$> page final) = Some "Hello" /\
  pendingSectionIds final = ∅ /\
  sections final
  = Some [SectionItem.mk (Some "Section") "s1" "A" closurePageId "Hi"].
Proof. cbn. done. Qed.

(** C5.  A [PageSectionContentCompleted] for an id that is not pending
    leaves the pending-set as it was. *)
Theorem completed_absent_noop (now id : string) (s : State) :
  id ∉ pendingSectionIds s ->
  pendingSectionIds (process now (PageSectionContentCompleted id) s)
  = pendingSectionIds s.
Proof. intros Hid. simpl. by apply removePending_absent. Qed.

(** C6.  A [PageSectionContentDelta] naming a section that is not in the
    list leaves the section list as it was; the reducer is a total
    function, so nothing is raised. *)
Theorem stray_delta_keeps_sections (now id delta : string) (s : State) :
  (forall l x, sections s = Some l -> x ∈ l -> SectionItem.id x <> id) ->
  sections (process now (PageSectionContentDelta id delta) s) = sections s.
Proof.
  intros Hid. simpl. unfold appendSectionContent.
  destruct (sections s) as [l|] eqn:Hs; [|done].
  rewrite find_none_no_id; [done|]. intros x Hx. by apply (Hid l).
Qed.

(** C10.  Every [PageSectionContentDelta] makes its id the current section,
    whether or not such a section exists; so a stray delta changes the
    state: at [midStream], which has no section ["s9"], it is not a
    no-op. *)
Theorem delta_sets_current_section :
  (forall now id delta s,
      currentSectionId (process now (PageSectionContentDelta id delta) s)
      = Some id) /\
  forallb (fun x => negb (String.eqb (SectionItem.id x) "s9"))
    (default [] (sections midStream)) = true /\
  (forall now,
      process now (PageSectionContentDelta "s9" "x") midStream <> midStream).
Proof.
  split; [done|split; [done|]].
  intros now Heq. apply (f_equal currentSectionId) in Heq. discriminate.
Qed.

End ReducerProperties.

(** C7.  [stop] empties the pending-set, clears the generating flag and the
    loading flag, and writes neither the page nor the section list. *)
Theorem stop_clears_flags_keeps_content (s : State) :
  pendingSectionIds (stop s) = ∅ /\
  isGeneratingPageContent (stop s) = false /\
  isLoading (stop s) = false /\
  page (stop s) = page s /\
  sections (stop s) = sections s.
Proof. done. Qed.

(** ** The pagination merge *)

Section UniqBy.

Context {A : Type} (f : A -> string).

Lemma uniqBy_go_elem (l : list A) (seen : gset string) (x : A) :
  x ∈ uniqBy_go f seen l -> x ∈ l /\ f x ∉ seen.
Proof.
  revert seen. induction l as [|y l IH]; intros seen Hx; simpl in Hx.
  - by apply not_elem_of_nil in Hx.
  - destruct (decide (f y ∈ seen)) as [Hin|Hout].
    + rewrite bool_decide_eq_true_2 in Hx by done.
      destruct (IH _ Hx). split; [by right|done].
    + rewrite bool_decide_eq_false_2 in Hx by done.
      apply elem_of_cons in Hx as [->|Hx]; [split; [by left|done]|].
      destruct (IH _ Hx) as [Hl Hs]. split; [by right|].
      intros Hin. apply Hs. apply elem_of_union. by right.
Qed.

Lemma uniqBy_go_NoDup (l : list A) (seen : gset string) :
  NoDup (f <$> uniqBy_go f seen l).
Proof.
  revert seen. induction l as [|y l IH]; intros seen; simpl.
  - constructor.
  - destruct (bool_decide (f y ∈ seen)); [apply IH|].
    rewrite fmap_cons. constructor; [|apply IH].
    intros Hin. apply list_elem_of_fmap in Hin as (z & Hz & Hin).
    apply uniqBy_go_elem in Hin as [_ Hs]. apply Hs.
    apply elem_of_union. left. apply elem_of_singleton. done.
Qed.

(** The result depends on [seen] only through the keys it holds, and the
    keys of a first part of the array act as [seen] for the rest. *)
Lemma uniqBy_go_app (l1 l2 : list A) (seen : gset string) :
  uniqBy_go f seen (l1 ++ l2)
  = uniqBy_go f seen l1 ++ uniqBy_go f (list_to_set (f <$> l1) ∪ seen) l2.
Proof.
  revert seen. induction l1 as [|y l1 IH]; intros seen; simpl.
  - f_equal. apply set_eq. intros x. rewrite elem_of_union.
    split; [by right|]. intros [Hx|Hx]; [|done].
    by apply not_elem_of_empty in Hx.
  - rewrite ?fmap_cons, ?list_to_set_cons.
    destruct (decide (f y ∈ seen)) as [Hin|Hout].
    + rewrite bool_decide_eq_true_2 by done. rewrite IH.
      do 2 f_equal. apply set_eq. intros x.
      rewrite !elem_of_union, elem_of_singleton.
      split; [tauto|]. intros [[->|Hx]|Hx]; auto.
    + rewrite bool_decide_eq_false_2 by done. simpl. f_equal. rewrite IH.
      do 2 f_equal. apply set_eq. intros x. rewrite !elem_of_union. tauto.
Qed.

Lemma uniqBy_go_fixed (l : list A) (seen : gset string) :
  NoDup (f <$> l) -> (forall x, x ∈ l -> f x ∉ seen) ->
  uniqBy_go f seen l = l.
Proof.
  revert seen. induction l as [|y l IH]; intros seen Hnd Hfresh; simpl.
  - done.
  - rewrite fmap_cons in Hnd. apply NoDup_cons in Hnd as [Hy Hnd].
    rewrite bool_decide_eq_false_2 by (apply Hfresh; by left).
    f_equal. apply IH; [done|]. intros x Hx Hin.
    apply elem_of_union in Hin as [Hin|Hin].
    + apply elem_of_singleton in Hin. apply Hy. rewrite <- Hin.
      by apply list_elem_of_fmap_2.
    + apply (Hfresh x); [by right|done].
Qed.

Lemma uniqBy_go_all_seen (l : list A) (seen : gset string) :
  (forall x, x ∈ l -> f x ∈ seen) -> uniqBy_go f seen l = [].
Proof.
  induction l as [|y l IH]; intros Hseen; simpl; [done|].
  rewrite bool_decide_eq_true_2 by (apply Hseen; by left).
  apply IH. intros x Hx. apply Hseen. by right.
Qed.

(** Every key of the array is either seen already or kept. *)
Lemma uniqBy_go_covers (l : list A) (seen : gset string) (x : A) :
  x ∈ l -> f x ∈ seen \/ f x ∈ f <$> uniqBy_go f seen l.
Proof.
  revert seen. induction l as [|y l IH]; intros seen Hx; simpl.
  - by apply not_elem_of_nil in Hx.
  - destruct (decide (f y ∈ seen)) as [Hin|Hout].
    + rewrite bool_decide_eq_true_2 by done.
      apply elem_of_cons in Hx as [->|Hx]; [by left|by apply IH].
    + rewrite bool_decide_eq_false_2 by done. rewrite fmap_cons.
      apply elem_of_cons in Hx as [->|Hx]; [right; by left|].
      destruct (IH ({[f y]} ∪ seen) Hx) as [Hs|Hk].
      * apply elem_of_union in Hs as [Hs|Hs]; [|by left].
        apply elem_of_singleton in Hs. right. rewrite Hs. by left.
      * right. by right.
Qed.

(** Starting with keys [S] already seen is filtering them out afterwards. *)
Lemma uniqBy_go_filter (l : list A) (S T : gset string) :
  uniqBy_go f (S ∪ T) l
  = List.filter (fun x => negb (bool_decide (f x ∈ S))) (uniqBy_go f T l).
Proof.
  revert T. induction l as [|y l IH]; intros T; simpl; [done|].
  assert (Hcomm : {[f y]} ∪ (S ∪ T) = S ∪ ({[f y]} ∪ T)).
  { apply set_eq. intros x. rewrite !elem_of_union. tauto. }
  destruct (decide (f y ∈ T)) as [HT|HT].
  - rewrite (bool_decide_eq_true_2 (f y ∈ T)) by done.
    rewrite bool_decide_eq_true_2 by (apply elem_of_union; by right).
    apply IH.
  - rewrite (bool_decide_eq_false_2 (f y ∈ T)) by done. simpl.
    destruct (decide (f y ∈ S)) as [HS|HS].
    + rewrite bool_decide_eq_true_2 by (apply elem_of_union; by left).
      rewrite (bool_decide_eq_true_2 (f y ∈ S)) by done. simpl.
      rewrite <- IH. f_equal. apply set_eq. intros x.
      rewrite !elem_of_union, elem_of_singleton.
      split; [tauto|]. intros [Hx|[->|Hx]]; auto.
    + rewrite bool_decide_eq_false_2
        by (rewrite elem_of_union; tauto).
      rewrite (bool_decide_eq_false_2 (f y ∈ S)) by done. simpl.
      f_equal. rewrite Hcomm. apply IH.
Qed.

Lemma uniqBy_NoDup (l : list A) : NoDup (f <$> uniqBy f l).
Proof. apply uniqBy_go_NoDup. Qed.

(** Stable ordered union: the first array deduplicated, then the elements
    of the second whose key the first does not have, deduplicated. *)
Lemma uniqBy_app (l1 l2 : list A) :
  uniqBy f (l1 ++ l2)
  = uniqBy f l1
    ++ List.filter
         (fun x => negb (bool_decide (f x ∈ (list_to_set (f <$> l1) : gset string))))
         (uniqBy f l2).
Proof.
  unfold uniqBy. rewrite uniqBy_go_app. f_equal. apply uniqBy_go_filter.
Qed.

(** An array whose keys are all present in a duplicate-free array adds
    nothing to it. *)
Lemma uniqBy_absorb (l1 l2 : list A) :
  NoDup (f <$> l1) -> (forall x, x ∈ l2 -> f x ∈ f <$> l1) ->
  uniqBy f (l1 ++ l2) = l1.
Proof.
  intros Hnd Hsub. unfold uniqBy. rewrite uniqBy_go_app.
  rewrite uniqBy_go_fixed; [|done|intros x _; apply not_elem_of_empty].
  rewrite uniqBy_go_all_seen; [apply app_nil_r|].
  intros x Hx. apply elem_of_union. left.
  apply elem_of_list_to_set. by apply Hsub.
Qed.

Lemma uniqBy_keeps_keys (l : list A) (x : A) :
  x ∈ l -> f x ∈ f <$> uniqBy f l.
Proof.
  intros Hx. destruct (uniqBy_go_covers l ∅ x Hx) as [Hs|Hk]; [|done].
  by apply not_elem_of_empty in Hs.
Qed.

End UniqBy.

(** C4.  Merging a page of records into the section list gives a list
    without repeated ids, made of the records already there (first
    occurrences, in place) followed by the records of the page whose id was
    not there yet; merging the same page again, at once or after later
    pages, changes nothing.  Pages [a,b] and [b,c] merged into the unset
    list give [a,b,c], with the first record for [b]. *)
Theorem merge_dedup_first_idempotent :
  (forall (prev : option (list SectionItem.t)) (messages : list SectionItem.t),
      exists l,
        mergeSections messages prev = Some l /\
        NoDup (SectionItem.id <$> l) /\
        l = uniqBy SectionItem.id (default [] prev)
            ++ List.filter
                 (fun x =>
                    negb (bool_decide
                            (SectionItem.id x
                               ∈ (list_to_set (SectionItem.id <$> default [] prev)
                                  : gset string))))
                 (uniqBy SectionItem.id messages) /\
        mergeSections messages (Some l) = Some l /\
        (forall later,
            mergeSections messages (mergeSections later (Some l))
            = mergeSections later (Some l))) /\
  mergeSections page2 (mergeSections page1 None)
  = Some [historical "a" "one"; historical "b" "first"; historical "c" "three"].
Proof.
  split; [|by vm_compute].
  intros prev messages. eexists. split; [reflexivity|].
  split; [apply uniqBy_NoDup|]. split; [apply uniqBy_app|].
  assert (Hkeys : forall l0 x, x ∈ messages ->
            SectionItem.id x
              ∈ SectionItem.id <$> uniqBy SectionItem.id (l0 ++ messages)).
  { intros l0 x Hx. apply uniqBy_keeps_keys. apply elem_of_app. by right. }
  split.
  - unfold mergeSections. simpl. f_equal.
    apply uniqBy_absorb; [apply uniqBy_NoDup|]. intros x Hx. by apply Hkeys.
  - intros later. unfold mergeSections. simpl. f_equal.
    apply uniqBy_absorb; [apply uniqBy_NoDup|]. intros x Hx.
    pose proof (Hkeys (default [] prev) x Hx) as Hin.
    apply list_elem_of_fmap in Hin as (z & Hz & Hin). rewrite Hz.
    apply uniqBy_keeps_keys. apply elem_of_app. by left.
Qed.

(** ** The controller: failed fetches and deletions *)

(** C8.  After the render that reports a failed sections fetch the view is
    ready and the sections query is paused, so no further page is asked for.
    The section list is either left as it was or has merged the whole page
    the render carries (when its data effect runs on fresh, non-empty data);
    no part of a page is ever applied, and a failure that carries no data
    leaves the list untouched. *)
Theorem failed_fetch_marks_ready (dataChanged : bool) (q : SectionsQuery)
    (pageIdFromURL : option string) (s : State) :
  is_Some (pageSectionsError q) ->
  let s' := effectsAfterRender dataChanged true q s in
  isReady s' = true /\
  sectionsQueryPaused pageIdFromURL s' = true /\
  sections s'
  = match pageSectionData q with
    | Some d =>
        if dataChanged && negb (pageSectionsStale q)
           && negb (Nat.eqb (length (edges d)) 0)
        then mergeSections (edges d) (sections s)
        else sections s
    | None => sections s
    end.
Proof.
  intros Herr s'.
  assert (Hready : isReady s' = true).
  { subst s'. unfold effectsAfterRender, sectionsErrorEffect.
    rewrite bool_decide_eq_true_2 by done. simpl.
    destruct (isReady s) eqn:Hr; simpl; [|done].
    destruct dataChanged; [|done].
    unfold sectionsDataEffect.
    destruct (pageSectionsStale q); [done|].
    destruct (pageSectionData q) as [d|]; [|done].
    destruct (hasNextPage (pageInfo d) && truthy (endCursor (pageInfo d)));
      [|done].
    simpl. by destruct (negb (length (edges d) =? 0)). }
  split; [done|]. split.
  { unfold sectionsQueryPaused. rewrite Hready. apply orb_true_r. }
  subst s'. unfold effectsAfterRender, sectionsErrorEffect.
  assert (Hsec : forall (b : bool) t, sections (if b then setIsReady true t else t)
                             = sections t) by (by intros []).
  rewrite Hsec. destruct dataChanged; simpl; [|by destruct (pageSectionData q)].
  unfold sectionsDataEffect.
  destruct (pageSectionsStale q); simpl; [by destruct (pageSectionData q)|].
  destruct (pageSectionData q) as [d|]; [|done].
  destruct (hasNextPage (pageInfo d) && truthy (endCursor (pageInfo d)));
    simpl; by destruct (negb (length (edges d) =? 0)).
Qed.

Lemma failed_fetch_marks_ready_witness :
  is_Some (pageSectionsError failedFetch) /\
  isReady (effectsAfterRender true true failedFetch loadingHistorical) = true /\
  sectionsQueryPaused (Some "p")
    (effectsAfterRender true true failedFetch loadingHistorical) = true /\
  sections (effectsAfterRender true true failedFetch loadingHistorical)
  = Some page1.
Proof.
  split; [by eexists|].
  apply (failed_fetch_marks_ready true failedFetch (Some "p") loadingHistorical).
  by eexists.
Defined.

(** C9.  What [onDeleteSection] does when the promise resolves, for every
    state: without a page id in the URL nothing; on a response that is not
    truthy the section list stays and the notice ["Failed to delete"] is
    raised; on a truthy response the list is set to the list of the render
    the handler was created in, without the deleted id.  That list is not
    the list of the state: the handler writes [setSections(nextSections)]
    from its closure where the other writers of the list use the updater
    form.  Two deletions issued from one render of [a; b], both confirmed:
    the first leaves [b], the second leaves [a], bringing [a] back, where
    the list before it without ["b"] is empty. *)
Theorem delete_section_filters_render_list :
  (forall (pageIdFromURL : option string)
          (closureSections : option (list SectionItem.t))
          (sectionId : string) (data : option (option bool)) (s : State),
      let s' := onDeleteSection pageIdFromURL closureSections sectionId
                  (Resolved data) s in
      if truthy pageIdFromURL
      then
        if deleteConfirmed data
        then sections s'
             = List.filter
                 (fun x => negb (String.eqb (SectionItem.id x) sectionId))
               <$> closureSections /\
             toasts s' = toasts s
        else sections s' = sections s /\
             toasts s' = toasts s ++ ["Failed to delete"]
      else s' = s) /\
  (let rendered := sections loadingHistorical in
   let s1 := onDeleteSection (Some "p") rendered "a"
               (Resolved (Some (Some true))) loadingHistorical in
   let s2 := onDeleteSection (Some "p") rendered "b"
               (Resolved (Some (Some true))) s1 in
   rendered = Some [historical "a" "one"; historical "b" "first"] /\
   sections s1 = Some [historical "b" "first"] /\
   sections s2 = Some [historical "a" "one"] /\
   (List.filter (fun x => negb (String.eqb (SectionItem.id x) "b"))
      <$> sections s1) = Some [] /\
   sections s2
   <> (List.filter (fun x => negb (String.eqb (SectionItem.id x) "b"))
         <$> sections s1)).
Proof.
  split.
  - intros pid cs sid data s. simpl. unfold onDeleteSection.
    destruct (truthy pid); simpl; [|done].
    by destruct (deleteConfirmed data).
  - simpl. repeat split. discriminate.
Qed.

(** ** Causally ordered streams *)

Lemma append_assoc (s1 s2 s3 : string) :
  (s1 +:+ s2) +:+ s3 = s1 +:+ (s2 +:+ s3).
Proof.
  induction s1 as [|c s1 IH]; [done|].
  change (String c ((s1 +:+ s2) +:+ s3) = String c (s1 +:+ (s2 +:+ s3))).
  by f_equal.
Qed.

Lemma append_empty_r (s : string) : s +:+ "" = s.
Proof.
  induction s as [|c s IH]; [done|].
  change (String c (s +:+ "") = String c s). by f_equal.
Qed.

Lemma joinAll_snoc (l : list string) (d : string) :
  joinAll (l ++ [d]) = joinAll l +:+ d.
Proof.
  unfold joinAll. induction l as [|x l IH].
  - apply append_empty_r.
  - change (x +:+ foldr String.append "" (l ++ [d])
            = (x +:+ foldr String.append "" l) +:+ d).
    rewrite IH. symmetry. apply append_assoc.
Qed.

Lemma pageDeltas_app (h1 h2 : list StreamEvent) :
  pageDeltas (h1 ++ h2) = pageDeltas h1 ++ pageDeltas h2.
Proof.
  induction h1 as [|e h1 IH]; simpl; [done|].
  destruct e; simpl; by rewrite ?IH.
Qed.

Lemma sectionDeltas_app (id : string) (h1 h2 : list StreamEvent) :
  sectionDeltas id (h1 ++ h2) = sectionDeltas id h1 ++ sectionDeltas id h2.
Proof.
  induction h1 as [|e h1 IH]; simpl; [done|].
  destruct e; simpl; rewrite ?IH; try done.
  by destruct (String.eqb _ _).
Qed.

(** [find] only decides whether the [map] runs; when nothing is found the
    [map] would have changed nothing. *)
Lemma appendSectionContent_map (id delta : string) (l : list SectionItem.t) :
  appendSectionContent id delta (Some l)
  = Some (List.map
            (fun x =>
               if String.eqb (SectionItem.id x) id
               then SectionItem.mk (SectionItem.__typename x)
                      (SectionItem.id x) (SectionItem.title x)
                      (SectionItem.pageId x)
                      (SectionItem.content x +:+ delta)
               else x)
            l).
Proof.
  unfold appendSectionContent.
  destruct (List.find _ l) eqn:Hfind; [done|]. f_equal.
  induction l as [|y l IH]; simpl in *; [done|].
  destruct (String.eqb (SectionItem.id y) id); [done|]. f_equal. by apply IH.
Qed.

Section CausalStreams.

Variable slugify : string -> string.
Variable closurePageId : option string.
Variable clock : nat -> string.

Local Abbreviation process := (processPageStream slugify closurePageId).
Local Abbreviation run := (processAll slugify closurePageId clock).

Lemma streamInv_initial (pendingThreadId : option string) :
  streamInv [] false false ∅ (initialState pendingThreadId).
Proof.
  unfold streamInv. simpl. repeat split; done.
Qed.

(** Events other than section deltas leave both section clauses alone. *)
Local Ltac sections_frame Hstr Hsecs :=
  split;
  [ intros ? ?; rewrite sectionDeltas_app, app_nil_r; by apply Hstr
  | eapply Forall_impl; [exact Hsecs|]; simpl; intros ? ?;
    by rewrite sectionDeltas_app, app_nil_r ].

(** One event keeps the link, along the bookkeeping of [causalFrom]. *)
Lemma streamInv_step hist ps pst str s now e rest :
  streamInv hist ps pst str s ->
  causalFrom ps pst str (e :: rest) = true ->
  exists ps' pst' str',
    streamInv (hist ++ [e]) ps' pst' str' (process now e s) /\
    causalFrom ps' pst' str' rest = true.
Proof.
  intros (Hset & Hpage & Hpst & Hstr & Hsecs) Hc.
  destruct e as [id authorId title|delta|id|secs|id delta|id|id|tag];
    simpl in Hc.
  - (* PageCreated *)
    apply andb_true_iff in Hc as [Hfresh Hc].
    apply negb_true_iff in Hfresh.
    exists true, pst, str. split; [|done].
    unfold streamInv. rewrite pageDeltas_app, app_nil_r. simpl.
    split; [by eexists|]. split; [by rewrite (Hpst Hfresh)|].
    split; [done|]. sections_frame Hstr Hsecs.
  - (* PageContentDelta *)
    apply andb_true_iff in Hc as [Hps Hc].
    exists ps, true, str. split; [|done].
    unfold streamInv. rewrite pageDeltas_app. simpl.
    destruct (Hset Hps) as [p Hp]. rewrite Hp in Hpage |- *. simpl.
    split; [by eexists|]. split; [by rewrite joinAll_snoc, Hpage|].
    split; [done|]. sections_frame Hstr Hsecs.
  - (* PageContentCompleted *)
    exists ps, pst, str. split; [|done].
    unfold streamInv. rewrite pageDeltas_app, app_nil_r. simpl.
    do 3 (split; [done|]). sections_frame Hstr Hsecs.
  - (* PageSectionsCreated *)
    apply andb_true_iff in Hc as [Hnew Hc].
    exists ps, pst, str. split; [|done].
    unfold streamInv. rewrite pageDeltas_app, app_nil_r. simpl.
    do 3 (split; [done|]). split.
    + intros i Hi. rewrite sectionDeltas_app, app_nil_r. by apply Hstr.
    + apply Forall_forall. intros x Hx.
      apply list_elem_of_In, in_map_iff in Hx as (y & <- & Hy). simpl.
      rewrite sectionDeltas_app, app_nil_r.
      rewrite Hstr; [done|].
      rewrite forallb_forall in Hnew. specialize (Hnew y Hy).
      apply negb_true_iff, bool_decide_eq_false in Hnew. done.
  - (* PageSectionContentDelta, and the arm it falls into *)
    exists ps, pst, ({[id]} ∪ str). split; [|done].
    unfold streamInv. rewrite pageDeltas_app, app_nil_r. simpl.
    do 3 (split; [done|]). split.
    + intros i Hi. rewrite sectionDeltas_app. simpl.
      apply not_elem_of_union in Hi as [Hne Hi].
      apply not_elem_of_singleton in Hne.
      destruct (String.eqb_spec id i) as [->|_]; [done|].
      rewrite app_nil_r. by apply Hstr.
    + destruct (sections s) as [l|] eqn:Hl; [|constructor].
      rewrite appendSectionContent_map. simpl in *.
      apply Forall_forall. intros x Hx.
      apply list_elem_of_In, in_map_iff in Hx as (y & <- & Hy).
      rewrite Forall_forall in Hsecs.
      specialize (Hsecs y (proj2 (list_elem_of_In _ _) Hy)).
      rewrite sectionDeltas_app.
      destruct (String.eqb_spec (SectionItem.id y) id) as [Heq|Hne]; simpl.
      * rewrite Heq, String.eqb_refl. rewrite joinAll_snoc.
        by rewrite Hsecs, Heq.
      * destruct (String.eqb_spec id (SectionItem.id y)) as [Heq|_];
          [by subst|].
        by rewrite app_nil_r.
  - (* PageSectionContentCompleted *)
    exists ps, pst, str. split; [|done].
    unfold streamInv. rewrite pageDeltas_app, app_nil_r. simpl.
    do 3 (split; [done|]). sections_frame Hstr Hsecs.
  - (* PageCompleted *)
    exists ps, pst, str. split; [|done].
    unfold streamInv. rewrite pageDeltas_app, app_nil_r. simpl.
    do 3 (split; [done|]). sections_frame Hstr Hsecs.
  - (* default *)
    exists ps, pst, str. split; [|done].
    unfold streamInv. rewrite pageDeltas_app, app_nil_r. simpl.
    do 3 (split; [done|]). sections_frame Hstr Hsecs.
Qed.

Lemma streamInv_run events :
  forall hist ps pst str s tick,
    streamInv hist ps pst str s ->
    causalFrom ps pst str events = true ->
    exists ps' pst' str',
      streamInv (hist ++ events) ps' pst' str' (run tick events s).
Proof.
  induction events as [|e rest IH]; intros hist ps pst str s tick Hinv Hc.
  - exists ps, pst, str. by rewrite app_nil_r.
  - destruct (streamInv_step hist ps pst str s (clock tick) e rest Hinv Hc)
      as (ps1 & pst1 & str1 & Hinv1 & Hc1).
    destruct (IH _ _ _ _ _ (S tick) Hinv1 Hc1) as (ps2 & pst2 & str2 & H2).
    exists ps2, pst2, str2. by rewrite <- app_assoc in H2.
Qed.

(** The page is set exactly when it was set before or a [PageCreated]
    came; no event unsets it. *)
Lemma page_set_after_run events :
  forall s tick,
    bool_decide (is_Some (page (run tick events s)))
    = bool_decide (is_Some (page s)) || hasPageCreated events.
Proof.
  induction events as [|e rest IH]; intros s tick; simpl.
  - by rewrite orb_false_r.
  - rewrite IH. destruct e; simpl; try done.
    + by rewrite orb_true_r.
    + unfold appendPageContent. by destruct (page s).
Qed.

(** The ids of the section list are those of the last
    [PageSectionsCreated]; deltas keep ids and order. *)
Lemma section_ids_after_run events :
  forall s tick,
    (List.map SectionItem.id <$> sections (run tick events s))
    = lastSectionsCreated (List.map SectionItem.id <$> sections s) events.
Proof.
  induction events as [|e rest IH]; intros s tick; simpl; [done|].
  rewrite IH. destruct e; simpl; try done.
  - do 2 f_equal. induction sections0 as [|y l IHl]; simpl; [done|].
    by f_equal.
  - f_equal. destruct (sections s) as [l|]; [|done].
    rewrite appendSectionContent_map. simpl. f_equal.
    induction l as [|y l IHl]; simpl; [done|]. f_equal; [|done].
    by destruct (String.eqb _ _).
Qed.

(** C3.  Folding a causally ordered sequence from the initial state: the
    page is set exactly when a [PageCreated] came, and its content is then
    the page deltas joined in delivery order; the section list is the one
    named by the last [PageSectionsCreated], and the content of each of
    its sections is the deltas carrying its id, joined in delivery
    order. *)
Theorem causal_stream_concatenates (pendingThreadId : option string)
    (events : list StreamEvent) :
  causal events = true ->
  let final := run 0 events (initialState pendingThreadId) in
  (PageItem.content <$> page final)
  = (if hasPageCreated events then Some (joinAll (pageDeltas events))
     else None) /\
  (List.map SectionItem.id <$> sections final)
  = lastSectionsCreated None events /\
  Forall
    (fun x =>
       SectionItem.content x
       = joinAll (sectionDeltas (SectionItem.id x) events))
    (default [] (sections final)).
Proof.
  intros Hc final.
  destruct (streamInv_run events [] false false ∅
              (initialState pendingThreadId) 0
              (streamInv_initial pendingThreadId) Hc)
    as (ps & pst & str & _ & Hpage & _ & _ & Hsecs).
  simpl in Hpage, Hsecs. fold final in Hpage, Hsecs.
  split; [|split; [apply section_ids_after_run|done]].
  pose proof (page_set_after_run events (initialState pendingThreadId) 0)
    as Hset.
  fold final in Hset. simpl in Hset.
  rewrite <- Hset.
  destruct (page final) as [p|]; simpl; [by rewrite Hpage|done].
Qed.

End CausalStreams.

(** ** The hypotheses above hold at the scenarios *)

Lemma causal_stream_concatenates_witness :
  causal scenario1 = true /\
  let final := processAll (fun t => t) None (fun _ => "t0") 0 scenario1
                 (initialState (Some "thread")) in
  (PageItem.content <$> page final) = Some "Hello" /\
  (List.map SectionItem.id <$> sections final) = Some ["s1"] /\
  Forall
    (fun x =>
       SectionItem.content x
       = joinAll (sectionDeltas (SectionItem.id x) scenario1))
    (default [] (sections final)).
Proof.
  split; [reflexivity|].
  apply (causal_stream_concatenates (fun t => t) None (fun _ => "t0")
           (Some "thread") scenario1).
  reflexivity.
Defined.

Lemma completed_absent_noop_witness :
  ("s2" ∉ pendingSectionIds midStream) /\
  pendingSectionIds
    (processPageStream (fun t => t) None "t1"
       (PageSectionContentCompleted "s2") midStream)
  = pendingSectionIds midStream.
Proof.
  assert (Habsent : "s2" ∉ pendingSectionIds midStream).
  { simpl. apply not_elem_of_singleton. discriminate. }
  split; [exact Habsent|].
  apply (completed_absent_noop (fun t => t) None "t1" "s2" midStream Habsent).
Defined.

Lemma stray_delta_keeps_sections_witness :
  (forall l x, sections midStream = Some l -> x ∈ l ->
               SectionItem.id x <> "s9") /\
  sections
    (processPageStream (fun t => t) None "t1"
       (PageSectionContentDelta "s9" "x") midStream)
  = sections midStream.
Proof.
  assert (Hstray : forall l x, sections midStream = Some l -> x ∈ l ->
                               SectionItem.id x <> "s9").
  { intros l x [= <-] Hx. apply list_elem_of_singleton in Hx. by subst. }
  split; [exact Hstray|].
  apply (stray_delta_keeps_sections (fun t => t) None "t1" "s9" "x"
           midStream Hstray).
Defined.

(** * Further properties of the reducer *)

Section ReducerRuns.

Variable slugify : string -> string.
Variable closurePageId : option string.
Variable clock : nat -> string.

Local Abbreviation process := (processPageStream slugify closurePageId).
Local Abbreviation run := (processAll slugify closurePageId clock).

Lemma processAll_app (events1 events2 : list StreamEvent) :
  forall s tick,
    run tick (events1 ++ events2) s
    = run (tick + length events1) events2 (run tick events1 s).
Proof.
  induction events1 as [|e rest IH]; intros s tick; simpl.
  - by rewrite Nat.add_0_r.
  - rewrite IH. f_equal. lia.
Qed.

(** X1.  Whatever was streamed before it, [PageCompleted] settles the view:
    the state is the one before the event with [stop] applied, so loading,
    the generating flag, the pending-set, the current section and the
    subscription handle are cleared, no section is shown as generating, the
    page and the sections are those streamed so far, and a [stop] by the
    user afterwards changes nothing. *)
Theorem page_completed_settles (events : list StreamEvent) (id : string)
    (s : State) :
  let before := run 0 events s in
  let final := run 0 (events ++ [PageCompleted id]) s in
  final = stop before /\
  isLoading final = false /\
  isGeneratingPageContent final = false /\
  pendingSectionIds final = ∅ /\
  currentSectionId final = None /\
  unsubscribeFn final = None /\
  page final = page before /\
  sections final = sections before /\
  Forall (fun x => isSectionGenerating final x = false)
    (default [] (sections final)) /\
  stop final = final.
Proof.
  intros before final. subst final. rewrite processAll_app. simpl.
  fold before. repeat split. apply Forall_forall. by intros x _.
Qed.

Lemma page_append_run (events : list StreamEvent) :
  forall (s : State) (p : PageItem.t) (tick : nat),
    hasPageCreated events = false ->
    page s = Some p ->
    exists p',
      page (run tick events s) = Some p' /\
      PageItem.id p' = PageItem.id p /\
      PageItem.authorId p' = PageItem.authorId p /\
      PageItem.title p' = PageItem.title p /\
      PageItem.createdAt p' = PageItem.createdAt p /\
      PageItem.updatedAt p' = PageItem.updatedAt p /\
      PageItem.content p'
      = PageItem.content p +:+ joinAll (pageDeltas events).
Proof.
  induction events as [|e rest IH]; intros s p tick Hno Hp.
  - exists p. simpl. rewrite append_empty_r. by repeat split.
  - destruct e as [id authorId title|delta|id|secs|id delta|id|id|tag];
      simpl in Hno; try discriminate;
      try (apply (IH _ p (S tick) Hno); simpl; exact Hp).
    destruct (IH (process (clock tick) (PageContentDelta delta) s)
                (PageItem.mk
                   (match PageItem.__typename p with
                    | Some t => Some t
                    | None => Some "Page"
                    end)
                   (PageItem.id p) (PageItem.authorId p) (PageItem.title p)
                   (PageItem.content p +:+ delta)
                   (PageItem.updatedAt p) (PageItem.createdAt p))
                (S tick) Hno)
      as (p' & Hp' & Hid & Hauthor & Htitle & Hc & Hu & Hcontent).
    { simpl. by rewrite Hp. }
    exists p'. simpl in *. repeat split; try done.
    rewrite Hcontent. apply append_assoc.
Qed.

(** X2.  Between two [PageCreated] events the page only grows by append:
    its id, author, title and both timestamps stay, and its content is the
    old content followed by the page deltas of the run, in order. *)
Theorem page_grows_by_append (events : list StreamEvent) (s : State)
    (p : PageItem.t) (tick : nat) :
  hasPageCreated events = false ->
  page s = Some p ->
  exists p',
    page (run tick events s) = Some p' /\
    PageItem.id p' = PageItem.id p /\
    PageItem.authorId p' = PageItem.authorId p /\
    PageItem.title p' = PageItem.title p /\
    PageItem.createdAt p' = PageItem.createdAt p /\
    PageItem.updatedAt p' = PageItem.updatedAt p /\
    PageItem.content p'
    = PageItem.content p +:+ joinAll (pageDeltas events).
Proof. apply page_append_run. Qed.

(** X3.  [PageCreated] starts the page afresh: whatever the state and the
    events before it, the page afterwards has the event's id, author and
    title and holds only the deltas delivered after it. *)
Theorem page_created_resets (pre post : list StreamEvent)
    (id authorId title : string) (s : State) :
  hasPageCreated post = false ->
  exists p,
    page (run 0 (pre ++ PageCreated id authorId title :: post) s) = Some p /\
    PageItem.id p = id /\
    PageItem.authorId p = authorId /\
    PageItem.title p = title /\
    PageItem.content p = joinAll (pageDeltas post).
Proof.
  intros Hno. rewrite processAll_app. simpl.
  destruct (page_append_run post
              (process (clock (0 + length pre))
                 (PageCreated id authorId title) (run 0 pre s))
              (PageItem.mk None id authorId title ""
                 (clock (0 + length pre)) (clock (0 + length pre)))
              (S (0 + length pre)) Hno eq_refl)
    as (p & Hp & Hid & Hauthor & Htitle & _ & _ & Hcontent).
  exists p. by repeat split.
Qed.

Lemma withAppended_empty (x : SectionItem.t) : withAppended "" x = x.
Proof. destruct x. unfold withAppended. simpl. by rewrite append_empty_r. Qed.

(** X4.  Without a [PageSectionsCreated] the section list keeps its
    records, their order, ids, titles and page ids; each content is the old
    content followed by the deltas that carry the section's id, in order. *)
Theorem sections_grow_by_append (events : list StreamEvent) :
  forall (s : State) (l : list SectionItem.t) (tick : nat),
    hasSectionsCreated events = false ->
    sections s = Some l ->
    sections (run tick events s)
    = Some (List.map
              (fun x =>
                 withAppended
                   (joinAll (sectionDeltas (SectionItem.id x) events)) x)
              l).
Proof.
  induction events as [|e rest IH]; intros s l tick Hno Hl.
  - simpl. rewrite Hl. f_equal. symmetry.
    transitivity (List.map (fun x : SectionItem.t => x) l);
      [|apply List.map_id].
    apply map_ext. intros x. apply withAppended_empty.
  - destruct e as [id authorId title|delta|id|secs|id delta|id|id|tag];
      simpl in Hno; try discriminate;
      try (apply (IH _ l (S tick) Hno); simpl; exact Hl).
    simpl. erewrite IH; [|done|].
    2:{ simpl. rewrite Hl. apply appendSectionContent_map. }
    f_equal. rewrite map_map. apply map_ext. intros x. simpl.
    destruct (String.eqb_spec (SectionItem.id x) id) as [Heq|Hne].
    + subst id. rewrite String.eqb_refl. unfold withAppended. simpl.
      f_equal. apply append_assoc.
    + destruct (String.eqb_spec id (SectionItem.id x)) as [Heq|_];
        [by subst|done].
Qed.

(** X5.  Only [PageSectionsCreated] adds to the pending-set: over a run
    without one, the pending-set never gains an id. *)
Theorem pending_never_grows (events : list StreamEvent) :
  forall (s : State) (tick : nat),
    hasSectionsCreated events = false ->
    pendingSectionIds (run tick events s) ⊆ pendingSectionIds s.
Proof.
  induction events as [|e rest IH]; intros s tick Hno; [done|].
  destruct e as [id authorId title|delta|id|secs|id delta|id|id|tag];
    simpl in Hno; try discriminate; simpl;
    (etrans; [apply (IH _ (S tick) Hno)|]); simpl; try done.
  all: rewrite removePending_spec; by apply subseteq_difference_l.
Qed.

(** X6.  The reducer keeps the pending-set inside the ids of the section
    list: from a state where every pending id names a section, any run of
    events leads to such a state. *)
Theorem pending_names_sections_kept (events : list StreamEvent) :
  forall (s : State) (tick : nat),
    pendingNamesSections s ->
    pendingNamesSections (run tick events s).
Proof.
  induction events as [|e rest IH]; intros s tick Hs; [done|].
  simpl. apply IH. clear IH.
  destruct e as [id authorId title|delta|id|secs|id delta|id|id|tag];
    try exact Hs; unfold pendingNamesSections in *; simpl.
  - intros i Hi. apply elem_of_list_to_set in Hi.
    rewrite <- list_fmap_compose.
    apply list_elem_of_fmap in Hi as (y & -> & Hy).
    apply list_elem_of_fmap. exists y. split; [done|].
    by apply list_elem_of_In, list_elem_of_In.
  - intros i Hi. rewrite removePending_spec in Hi.
    apply elem_of_difference in Hi as [Hi _]. specialize (Hs i Hi).
    destruct (sections s) as [l|]; [|done].
    rewrite appendSectionContent_map. simpl in *.
    apply list_elem_of_fmap in Hs as (y & -> & Hy).
    apply list_elem_of_fmap.
    exists (if String.eqb (SectionItem.id y) id
            then withAppended delta y else y).
    split; [by destruct (String.eqb _ _)|].
    apply list_elem_of_In, in_map_iff. exists y.
    split; [done|by apply list_elem_of_In].
  - intros i Hi. rewrite removePending_spec in Hi.
    apply elem_of_difference in Hi as [Hi _]. by apply Hs.
  - intros i Hi. by apply not_elem_of_empty in Hi.
Qed.

(** X7.  The reducer writes nothing of the historical side: readiness, the
    error, the cursor and the notices are as before any run, and the only
    navigations are one [updatePageURL] per [PageCreated], in order. *)
Theorem reducer_frame (events : list StreamEvent) :
  forall (s : State) (tick : nat),
    let final := run tick events s in
    isReady final = isReady s /\
    error final = error s /\
    afterCursor final = afterCursor s /\
    toasts final = toasts s /\
    navigations final = navigations s ++ createdPaths slugify events.
Proof.
  induction events as [|e rest IH]; intros s tick; simpl.
  - by rewrite app_nil_r.
  - destruct (IH (process (clock tick) e s) (S tick))
      as (Hr & He & Hc & Ht & Hn).
    rewrite Hr, He, Hc, Ht, Hn.
    destruct e; simpl; repeat split; try done.
    by rewrite <- app_assoc.
Qed.

End ReducerRuns.

(** * The page id in the URL *)

Lemma split_nonempty (sep : Ascii.ascii) (s : string) : split sep s <> [].
Proof.
  induction s as [|c s IH]; simpl; [done|].
  destruct (Ascii.eqb c sep); [done|]. by destruct (split sep s).
Qed.

Lemma split_app_sep (sep : Ascii.ascii) (a b : string) :
  split sep (a +:+ String sep b) = split sep a ++ split sep b.
Proof.
  induction a as [|c a IH].
  - change (split sep (String sep b) = [EmptyString] ++ split sep b).
    simpl. by rewrite Ascii.eqb_refl.
  - change (split sep (String c (a +:+ String sep b))
            = split sep (String c a) ++ split sep b).
    simpl. rewrite IH. destruct (Ascii.eqb c sep); [done|].
    pose proof (split_nonempty sep a) as Hne.
    by destruct (split sep a).
Qed.

Lemma split_no_sep (sep : Ascii.ascii) (b : string) :
  contains sep b = false -> split sep b = [b].
Proof.
  induction b as [|c b IH]; simpl; [done|]. intros Hno.
  apply orb_false_iff in Hno as [Hc Hno]. rewrite Hc, (IH Hno). done.
Qed.

Lemma split_parts_no_sep (sep : Ascii.ascii) (s : string) :
  Forall (fun part => contains sep part = false) (split sep s).
Proof.
  induction s as [|c s IH]; simpl; [by repeat constructor|].
  destruct (Ascii.eqb c sep) eqn:Hc; [by constructor|].
  destruct (split sep s) as [|head tail].
  { constructor; [|constructor]. simpl. by rewrite Hc. }
  apply Forall_cons in IH as [Hhead Htail].
  constructor; [|done]. simpl. by rewrite Hc, Hhead.
Qed.

Lemma pageIdFromURL_pages (rest : string) :
  pageIdFromURL (Some ("/pages/" +:+ rest)) = last (split dash (takeLine rest)).
Proof. reflexivity. Qed.

(** X8.  The URL written at [PageCreated] reads back as the page's id:
    when the id is not empty and has no ["-"], and slug and id hold no line
    terminator, [pageIdFromURL] of the path name that [updatePageURL] hands
    to the router is the id of the event. *)
Theorem page_url_round_trip (slugify : string -> string)
    (closurePageId : option string) (now id authorId title : string)
    (s : State) :
  id <> "" ->
  contains dash id = false ->
  takeLine (slugify title +:+ "-" +:+ id) = slugify title +:+ "-" +:+ id ->
  pageIdFromURL
    (last (navigations
             (processPageStream slugify closurePageId now
                (PageCreated id authorId title) s)))
  = Some id.
Proof.
  intros Hid Hdash Hline. simpl. rewrite last_snoc.
  rewrite pageIdFromURL_pages. unfold compact. simpl.
  rewrite (proj2 (String.eqb_neq id "") Hid). simpl.
  destruct (String.eqb_spec (slugify title) "") as [Hslug|Hslug]; simpl.
  - rewrite Hslug in Hline.
    change (takeLine (String dash id) = String dash id) in Hline.
    simpl in Hline. injection Hline as Hline.
    rewrite Hline, (split_no_sep dash id Hdash). done.
  - rewrite Hline.
    change (slugify title +:+ "-" +:+ id)
      with (slugify title +:+ String dash id).
    rewrite split_app_sep, (split_no_sep dash id Hdash). apply last_snoc.
Qed.

Lemma stripPrefix_Some (prefix s rest : string) :
  stripPrefix prefix s = Some rest -> s = prefix +:+ rest.
Proof.
  revert s. induction prefix as [|a prefix IH]; intros s Hs; simpl in Hs.
  - by injection Hs as ->.
  - destruct s as [|b s]; [done|].
    destruct (Ascii.eqb_spec a b) as [->|_]; [|done].
    change (String b s = String b (prefix +:+ rest)). f_equal. by apply IH.
Qed.

(** Joining the parts of a split with the separator gives the string back. *)
Lemma concat_split (sep : Ascii.ascii) (s : string) :
  String.concat (String sep EmptyString) (split sep s) = s.
Proof.
  induction s as [|c s IH]; [done|]. simpl.
  pose proof (split_nonempty sep s) as Hne.
  destruct (Ascii.eqb_spec c sep) as [->|_].
  - destruct (split sep s) as [|head tail]; [done|].
    change (String sep (String.concat (String sep EmptyString) (head :: tail))
            = String sep s).
    by rewrite IH.
  - destruct (split sep s) as [|head tail]; [done|].
    destruct tail as [|next tail].
    + simpl in IH |- *. by rewrite IH.
    + change (String c (String.concat (String sep EmptyString)
                          (head :: next :: tail))
              = String c s).
      by rewrite IH.
Qed.

Lemma concat_snoc (sep : string) (l : list string) (x : string) :
  l <> [] ->
  String.concat sep (l ++ [x]) = String.concat sep l +:+ sep +:+ x.
Proof.
  induction l as [|y l IH]; [done|]. intros _.
  destruct l as [|z l]; [done|].
  change (y +:+ sep +:+ String.concat sep ((z :: l) ++ [x])
          = (y +:+ sep +:+ String.concat sep (z :: l)) +:+ sep +:+ x).
  rewrite IH by done. by rewrite !append_assoc.
Qed.

(** The last part of a split is what follows the last separator. *)
Lemma last_split (sep : Ascii.ascii) (s x : string) :
  last (split sep s) = Some x ->
  contains sep x = false /\
  (s = x \/ exists before, s = before +:+ String sep x).
Proof.
  intros Hlast. split.
  - pose proof (split_parts_no_sep sep s) as Hparts.
    rewrite Forall_forall in Hparts. apply Hparts.
    by apply last_Some_elem_of.
  - apply last_Some in Hlast as [parts Hparts].
    pose proof (concat_split sep s) as Hjoin. rewrite Hparts in Hjoin.
    destruct parts as [|y parts]; [by left|]. right.
    exists (String.concat (String sep EmptyString) (y :: parts)).
    rewrite <- Hjoin. by rewrite concat_snoc.
Qed.

(** X9.  The id read from the URL never holds a ["-"]: it is the part of
    the path after the last one.  Whenever [pageIdFromURL] returns an id,
    the path name is ["/pages/"] followed by some rest, and the first line
    of that rest is either the id itself or something, a ["-"], and the id;
    the id has no ["-"]. *)
Theorem page_id_from_url_has_no_dash (activePathname : option string)
    (id : string) :
  pageIdFromURL activePathname = Some id ->
  contains dash id = false /\
  exists rest,
    activePathname = Some ("/pages/" +:+ rest) /\
    (takeLine rest = id
     \/ exists before, takeLine rest = before +:+ String dash id).
Proof.
  unfold pageIdFromURL. intros Hid.
  destruct (negb (truthy activePathname)); [done|].
  destruct activePathname as [pathname|]; [|done].
  destruct (stripPrefix "/pages/" pathname) as [rest|] eqn:Hrest; [|done].
  apply stripPrefix_Some in Hrest.
  apply last_split in Hid as [Hdash Hpart].
  split; [done|]. exists rest. by rewrite Hrest.
Qed.

(** * More on the pagination merge *)

Lemma uniqBy_uniqBy_app {A} (f : A -> string) (l m : list A) :
  uniqBy f (uniqBy f l ++ m) = uniqBy f (l ++ m).
Proof.
  unfold uniqBy. rewrite !uniqBy_go_app.
  rewrite (uniqBy_go_fixed f (uniqBy_go f ∅ l));
    [|apply uniqBy_go_NoDup|intros x _; apply not_elem_of_empty].
  assert (Hkeys : (list_to_set (f <$> uniqBy_go f ∅ l) : gset string)
                  = list_to_set (f <$> l)).
  { apply set_eq. intros k.
    rewrite !elem_of_list_to_set. split; intros Hk.
    - apply list_elem_of_fmap in Hk as (z & -> & Hz).
      apply uniqBy_go_elem in Hz as [Hz _]. by apply list_elem_of_fmap_2.
    - apply list_elem_of_fmap in Hk as (z & -> & Hz).
      by apply (uniqBy_keeps_keys f). }
  by rewrite Hkeys.
Qed.

(** X10.  Merging page after page is merging all their records at once:
    the order of arrival of the records decides, not the page borders. *)
Theorem merge_pages_composes (prev : option (list SectionItem.t))
    (messages1 messages2 : list SectionItem.t) :
  mergeSections messages2 (mergeSections messages1 prev)
  = mergeSections (messages1 ++ messages2) prev.
Proof.
  unfold mergeSections. simpl. f_equal.
  rewrite uniqBy_uniqBy_app. by rewrite app_assoc.
Qed.

(** X11.  The merge neither loses nor invents sections: the ids of the
    merged list are those of the list before together with those of the
    page, and every merged record is a record of one of the two. *)
Theorem merge_ids_are_union (prev : option (list SectionItem.t))
    (messages : list SectionItem.t) :
  let merged := default [] (mergeSections messages prev) in
  (list_to_set (SectionItem.id <$> merged) : gset string)
  = list_to_set (SectionItem.id <$> default [] prev)
    ∪ list_to_set (SectionItem.id <$> messages) /\
  Forall (fun x => x ∈ default [] prev ++ messages) merged.
Proof.
  simpl. split.
  - apply set_eq. intros k.
    rewrite elem_of_union, !elem_of_list_to_set. split.
    + intros Hk. apply list_elem_of_fmap in Hk as (z & -> & Hz).
      apply uniqBy_go_elem in Hz as [Hz _].
      apply elem_of_app in Hz as [Hz|Hz];
        [left|right]; by apply list_elem_of_fmap_2.
    + intros [Hk|Hk]; apply list_elem_of_fmap in Hk as (z & -> & Hz);
        apply (uniqBy_keeps_keys SectionItem.id); apply elem_of_app;
        [by left|by right].
  - apply Forall_forall. intros x Hx.
    by apply uniqBy_go_elem in Hx as [Hx _].
Qed.

(** * The controller around the reducer *)

(** X12.  A subscription result that carries an error stops loading and
    records the error, and does nothing else: an event delivered in the same
    result is not applied, and, unlike [stop], the pending-set, the
    generating flag, the current section and the subscription ref stay as
    they were; a [stop] clears them as usual, before or after the error,
    with the same outcome.  A result with neither error nor event changes
    nothing. *)
Theorem subscriber_error_only_stops_loading (slugify : string -> string)
    (closurePageId : option string) (now e : string)
    (value : option StreamEvent) (s : State) :
  let s' := subscriber slugify closurePageId now
              (mkSubscriptionResult (Some e) value) s in
  isLoading s' = false /\
  error s' = Some e /\
  page s' = page s /\
  sections s' = sections s /\
  pendingSectionIds s' = pendingSectionIds s /\
  isGeneratingPageContent s' = isGeneratingPageContent s /\
  currentSectionId s' = currentSectionId s /\
  unsubscribeFn s' = unsubscribeFn s /\
  navigations s' = navigations s /\
  stop s' = setError (Some e) (stop s) /\
  subscriber slugify closurePageId now (mkSubscriptionResult (Some e) value)
    (stop s) = stop s' /\
  subscriber slugify closurePageId now (mkSubscriptionResult None None) s = s.
Proof. by repeat split. Qed.

(** X13.  The conversion is started at most once per view.  The effect
    does nothing while the path name is not initialised or the URL has a
    page id; once it has run otherwise, every later run, whatever it is
    given, changes nothing; and only a first run that finds a pending
    thread id opens the subscription, turns loading on and clears the
    token. *)
Theorem init_effect_runs_once (isPathnameInitialized : bool)
    (pageIdFromURL pendingThreadId : option string) (c : Controller) :
  let c1 := initEffect isPathnameInitialized pageIdFromURL pendingThreadId c in
  (if isPathnameInitialized && negb (truthy pageIdFromURL)
   then initializing c1 = true /\
        forall again pageIdFromURL' pendingThreadId',
          initEffect again pageIdFromURL' pendingThreadId' c1 = c1
   else c1 = c) /\
  (if isPathnameInitialized && negb (truthy pageIdFromURL)
      && negb (initializing c) && truthy pendingThreadId
   then isLoading (viewState c1) = true /\
        unsubscribeFn (viewState c1) = pendingThreadId /\
        error (viewState c1) = None /\
        storePendingThreadId c1 = None
   else viewState c1 = viewState c /\
        storePendingThreadId c1 = storePendingThreadId c).
Proof.
  unfold initEffect. simpl.
  destruct (isPathnameInitialized && negb (truthy pageIdFromURL)); simpl;
    [|done].
  destruct (initializing c) eqn:Hinit; simpl.
  - split; [|done]. split; [done|]. intros again p' t'.
    rewrite Hinit. by destruct (again && negb (truthy p')).
  - destruct (truthy pendingThreadId); simpl.
    + split; [|done]. split; [done|]. intros again p' t'.
      by destruct (again && negb (truthy p')).
    + split; [|done]. split; [done|]. intros again p' t'.
      by destruct (again && negb (truthy p')).
Qed.

Lemma error_effect_makes_ready (dataChanged : bool) (q : SectionsQuery)
    (s : State) :
  is_Some (pageSectionsError q) ->
  isReady (effectsAfterRender dataChanged true q s) = true.
Proof.
  intros Herr. unfold effectsAfterRender, sectionsErrorEffect.
  rewrite bool_decide_eq_true_2 by done. simpl.
  destruct (isReady s) eqn:Hr; simpl; [|done].
  destruct dataChanged; [|done].
  unfold sectionsDataEffect.
  destruct (pageSectionsStale q); [done|].
  destruct (pageSectionData q) as [d|]; [|done].
  destruct (hasNextPage (pageInfo d) && truthy (endCursor (pageInfo d)));
    [|done].
  simpl. by destruct (negb (length (edges d) =? 0)).
Qed.

(** X14.  A failed sections fetch ends in an error view, never in the
    skeleton or the page body: after the effects of the render that reports
    the error, the component returns [ErrorView] for that error, which is
    the not-found page exactly when the message is the not-found code. *)
Theorem failed_fetch_renders_error (ERROR_CODE_NOT_FOUND : string)
    (dataChanged isFetchingPageSections : bool) (q : SectionsQuery)
    (e : string) (s : State) :
  pageSectionsError q = Some e ->
  render ERROR_CODE_NOT_FOUND q isFetchingPageSections
    (effectsAfterRender dataChanged true q s)
  = (if String.eqb e ERROR_CODE_NOT_FOUND then NotFoundPage else ErrorPanel).
Proof.
  intros He. unfold render. rewrite He.
  rewrite (error_effect_makes_ready dataChanged q s);
    [done|by rewrite He; eexists].
Qed.

(** X15.  While the sections query keeps running after a page of data, the
    cursor has moved to that page's end cursor, which is not empty: the
    same page is never asked for again.  A page that announces a next page
    without a usable cursor ends the pagination. *)
Theorem pagination_continues_only_with_cursor
    (pageIdFromURL : option string) (q : SectionsQuery) (d : PageSections)
    (s : State) :
  pageSectionsStale q = false ->
  pageSectionData q = Some d ->
  sectionsQueryPaused pageIdFromURL (sectionsDataEffect q s) = false ->
  hasNextPage (pageInfo d) = true /\
  truthy (endCursor (pageInfo d)) = true /\
  afterCursor (sectionsDataEffect q s) = endCursor (pageInfo d).
Proof.
  intros Hstale Hd. unfold sectionsDataEffect, sectionsQueryPaused.
  rewrite Hstale, Hd.
  destruct (hasNextPage (pageInfo d)); simpl.
  - destruct (truthy (endCursor (pageInfo d))); simpl; [done|].
    destruct (negb (length (edges d) =? 0)); simpl;
      rewrite orb_true_r; discriminate.
  - destruct (negb (length (edges d) =? 0)); simpl;
      rewrite orb_true_r; discriminate.
Qed.

(** * The header *)

(** X16.  "Delete Page" is offered by the header of the page body only in
    view mode, when nothing is loading, for a page id in the URL, and to the
    signed-in user who is the author of the page that was fetched; "Add new
    page" is offered whenever it is. *)
Theorem delete_page_offered_to_author_only (mode : Mode)
    (meId pageIdFromURL firstPageAuthorId : option string) (s : State) :
  deletePageOffered mode
    (isPageOwner meId pageIdFromURL firstPageAuthorId)
    (pageBodyHeaderProps pageIdFromURL s) = true ->
  mode = view /\
  isLoading s = false /\
  truthy pageIdFromURL = true /\
  (exists me, meId = Some me /\ firstPageAuthorId = Some me) /\
  addNewPageOffered mode (pageBodyHeaderProps pageIdFromURL s) = true.
Proof.
  unfold deletePageOffered, addNewPageOffered, pageBodyHeaderProps. simpl.
  destruct mode; [discriminate|]. intros Hoffer.
  apply andb_true_iff in Hoffer as [Hoffer Howner].
  apply andb_true_iff in Hoffer as [Hdone Hpid].
  apply negb_true_iff in Hdone.
  split; [done|]. split; [done|]. split; [done|].
  split; [|by rewrite Hdone, Hpid].
  unfold isPageOwner in Howner. destruct meId as [me|]; [|discriminate].
  rewrite Hpid in Howner. simpl in Howner.
  destruct firstPageAuthorId as [author|]; [|discriminate].
  apply String.eqb_eq in Howner. subst. by exists author.
Qed.


(** X18.  [formatThreadRunErrorMessage] never returns an empty message,
    whatever the error and the not-found code; a message ["401"] is
    reported as ["Unauthorized"] even when a not-found code is present. *)
Theorem thread_error_message_never_empty (ERROR_CODE_NOT_FOUND : string)
    (error : option ExtendedCombinedError) :
  formatThreadRunErrorMessage ERROR_CODE_NOT_FOUND error <> "" /\
  forall codes,
    formatThreadRunErrorMessage ERROR_CODE_NOT_FOUND
      (Some (mkExtendedCombinedError "401" codes))
    = "Unauthorized".
Proof.
  split; [|done]. unfold formatThreadRunErrorMessage.
  destruct error as [e|]; [|done].
  destruct (String.eqb (message e) "401"); [done|].
  destruct (existsb _ (graphQLErrors e)); [done|].
  destruct (String.eqb_spec (message e) "") as [_|Hm]; done.
Qed.


(** * The hypotheses of the further properties hold at concrete inputs *)

Lemma page_grows_by_append_witness :
  hasPageCreated [PageContentDelta "!"; PageContentCompleted "1"] = false /\
  page midStream
  = Some (PageItem.mk (Some "Page") "1" "u" "T" "Hello" "t0" "t0") /\
  exists p',
    page (processAll (fun t => t) None (fun _ => "t1") 0
            [PageContentDelta "!"; PageContentCompleted "1"] midStream)
    = Some p' /\
    PageItem.id p' = "1" /\
    PageItem.authorId p' = "u" /\
    PageItem.title p' = "T" /\
    PageItem.createdAt p' = "t0" /\
    PageItem.updatedAt p' = "t0" /\
    PageItem.content p' = "Hello!".
Proof.
  split; [reflexivity|]. split; [reflexivity|].
  apply (page_grows_by_append (fun t => t) None (fun _ => "t1")
           [PageContentDelta "!"; PageContentCompleted "1"] midStream
           (PageItem.mk (Some "Page") "1" "u" "T" "Hello" "t0" "t0") 0);
    reflexivity.
Defined.

Lemma page_created_resets_witness :
  hasPageCreated [PageContentDelta "kept"] = false /\
  exists p,
    page (processAll (fun t => t) None (fun _ => "t1") 0
            ([PageContentDelta "lost"]
             ++ PageCreated "2" "u" "T2" :: [PageContentDelta "kept"])
            midStream)
    = Some p /\
    PageItem.id p = "2" /\
    PageItem.authorId p = "u" /\
    PageItem.title p = "T2" /\
    PageItem.content p = "kept".
Proof.
  split; [reflexivity|].
  apply (page_created_resets (fun t => t) None (fun _ => "t1")
           [PageContentDelta "lost"] [PageContentDelta "kept"]
           "2" "u" "T2" midStream).
  reflexivity.
Defined.

Lemma sections_grow_by_append_witness :
  hasSectionsCreated
    [PageSectionContentDelta "s1" "Hi"; PageSectionContentDelta "s9" "x";
     PageSectionContentDelta "s1" "!"] = false /\
  sections midStream
  = Some [SectionItem.mk (Some "Section") "s1" "A" None ""] /\
  sections
    (processAll (fun t => t) None (fun _ => "t1") 0
       [PageSectionContentDelta "s1" "Hi"; PageSectionContentDelta "s9" "x";
        PageSectionContentDelta "s1" "!"] midStream)
  = Some [SectionItem.mk (Some "Section") "s1" "A" None "Hi!"].
Proof.
  split; [reflexivity|]. split; [reflexivity|].
  apply (sections_grow_by_append (fun t => t) None (fun _ => "t1")
           [PageSectionContentDelta "s1" "Hi";
            PageSectionContentDelta "s9" "x";
            PageSectionContentDelta "s1" "!"]
           midStream
           [SectionItem.mk (Some "Section") "s1" "A" None ""] 0);
    reflexivity.
Defined.

Lemma pending_never_grows_witness :
  hasSectionsCreated
    [PageContentDelta "x"; PageSectionContentCompleted "s2"] = false /\
  pendingSectionIds
    (processAll (fun t => t) None (fun _ => "t1") 0
       [PageContentDelta "x"; PageSectionContentCompleted "s2"] midStream)
  ⊆ pendingSectionIds midStream.
Proof.
  split; [reflexivity|].
  apply (pending_never_grows (fun t => t) None (fun _ => "t1")
           [PageContentDelta "x"; PageSectionContentCompleted "s2"]
           midStream 0).
  reflexivity.
Defined.

Lemma pending_names_sections_kept_witness :
  pendingNamesSections midStream /\
  pendingNamesSections
    (processAll (fun t => t) None (fun _ => "t1") 0 scenario1 midStream).
Proof.
  assert (Hmid : pendingNamesSections midStream).
  { intros id Hid. simpl in *. apply elem_of_singleton in Hid. subst.
    by left. }
  split; [exact Hmid|].
  apply (pending_names_sections_kept (fun t => t) None (fun _ => "t1")
           scenario1 midStream 0 Hmid).
Defined.

Lemma page_url_round_trip_witness :
  "abc123" <> "" /\
  contains dash "abc123" = false /\
  takeLine ("my-title" +:+ "-" +:+ "abc123") = "my-title" +:+ "-" +:+ "abc123" /\
  pageIdFromURL
    (last (navigations
             (processPageStream (fun _ => "my-title") None "t1"
                (PageCreated "abc123" "u" "My Title") midStream)))
  = Some "abc123".
Proof.
  assert (Hne : "abc123" <> "") by discriminate.
  split; [exact Hne|]. split; [reflexivity|]. split; [reflexivity|].
  apply (page_url_round_trip (fun _ => "my-title") None "t1" "abc123" "u"
           "My Title" midStream Hne);
    reflexivity.
Defined.

Lemma page_id_from_url_has_no_dash_witness :
  pageIdFromURL (Some "/pages/my-title-abc123") = Some "abc123" /\
  contains dash "abc123" = false /\
  exists rest,
    Some "/pages/my-title-abc123" = Some ("/pages/" +:+ rest) /\
    (takeLine rest = "abc123"
     \/ exists before, takeLine rest = before +:+ String dash "abc123").
Proof.
  split; [reflexivity|].
  apply (page_id_from_url_has_no_dash (Some "/pages/my-title-abc123")
           "abc123").
  reflexivity.
Defined.

Lemma failed_fetch_renders_error_witness :
  pageSectionsError failedFetch = Some "Failed to fetch" /\
  render "NOT_FOUND" failedFetch true
    (effectsAfterRender true true failedFetch loadingHistorical)
  = ErrorPanel.
Proof.
  split; [reflexivity|].
  apply (failed_fetch_renders_error "NOT_FOUND" true true failedFetch
           "Failed to fetch" loadingHistorical).
  reflexivity.
Defined.

Lemma pagination_continues_only_with_cursor_witness :
  let d := mkPageSections page2 (mkPageInfo true (Some "cursor2")) in
  let q := mkSectionsQuery (Some d) None false in
  pageSectionsStale q = false /\
  pageSectionData q = Some d /\
  sectionsQueryPaused (Some "p") (sectionsDataEffect q loadingHistorical)
  = false /\
  hasNextPage (pageInfo d) = true /\
  truthy (endCursor (pageInfo d)) = true /\
  afterCursor (sectionsDataEffect q loadingHistorical) = Some "cursor2".
Proof.
  intros d q. split; [reflexivity|]. split; [reflexivity|].
  split; [reflexivity|].
  apply (pagination_continues_only_with_cursor (Some "p") q d
           loadingHistorical);
    reflexivity.
Defined.

Lemma delete_page_offered_to_author_only_witness :
  deletePageOffered view (isPageOwner (Some "u") (Some "p") (Some "u"))
    (pageBodyHeaderProps (Some "p") loadingHistorical) = true /\
  view = view /\
  isLoading loadingHistorical = false /\
  truthy (Some "p") = true /\
  (exists me, Some "u" = Some me /\ Some "u" = Some me) /\
  addNewPageOffered view (pageBodyHeaderProps (Some "p") loadingHistorical)
  = true.
Proof.
  split; [reflexivity|].
  apply (delete_page_offered_to_author_only view (Some "u") (Some "p")
           (Some "u") loadingHistorical).
  reflexivity.
Defined.

(** * Two more invariants *)

Lemma closure_page_id_run (slugify : string -> string)
    (closurePageId : option string) (clock : nat -> string)
    (events : list StreamEvent) :
  forall (s : State) (tick : nat),
    hasSectionsCreated events = true
    \/ Forall
         (fun x =>
            SectionItem.pageId x = closurePageId /\
            SectionItem.__typename x = Some "Section")
         (default [] (sections s)) ->
    Forall
      (fun x =>
         SectionItem.pageId x = closurePageId /\
         SectionItem.__typename x = Some "Section")
      (default [] (sections (processAll slugify closurePageId clock tick
                               events s))).
Proof.
  induction events as [|e rest IH]; intros s tick Hs.
  - destruct Hs as [Hs|Hs]; [discriminate|done].
  - simpl. apply IH.
    destruct e as [id authorId title|delta|id|secs|id delta|id|id|tag];
      simpl in Hs |- *; try exact Hs.
    + right. apply Forall_forall. intros x Hx.
      apply list_elem_of_In, in_map_iff in Hx as (y & <- & _). done.
    + destruct Hs as [Hs|Hs]; [by left|right].
      destruct (sections s) as [l|]; [|done].
      rewrite appendSectionContent_map. simpl in *.
      apply Forall_forall. intros x Hx.
      apply list_elem_of_In, in_map_iff in Hx as (y & <- & Hy).
      rewrite Forall_forall in Hs.
      specialize (Hs y (proj2 (list_elem_of_In _ _) Hy)).
      by destruct (String.eqb _ _).
Qed.

(** X19.  The sections of a stream carry the page id of the render that
    opened the subscription, not the id announced by [PageCreated]: after
    any run that holds a [PageSectionsCreated], every section of the list
    has [pageId] equal to the closure's [pageId] (unset, when the stream was
    started from a page without id) and the type name ["Section"]. *)
Theorem sections_carry_closure_page_id (slugify : string -> string)
    (closurePageId : option string) (clock : nat -> string)
    (events : list StreamEvent) (s : State) (tick : nat) :
  hasSectionsCreated events = true ->
  Forall
    (fun x =>
       SectionItem.pageId x = closurePageId /\
       SectionItem.__typename x = Some "Section")
    (default [] (sections (processAll slugify closurePageId clock tick
                             events s))).
Proof. intros Hc. apply closure_page_id_run. by left. Qed.

Lemma sections_carry_closure_page_id_witness :
  hasSectionsCreated scenario1 = true /\
  pageId
    (processAll (fun t => t) None (fun _ => "t1") 0 scenario1
       (initialState (Some "thread")))
  = Some "1" /\
  Forall
    (fun x =>
       SectionItem.pageId x = None /\
       SectionItem.__typename x = Some "Section")
    (default []
       (sections
          (processAll (fun t => t) None (fun _ => "t1") 0 scenario1
             (initialState (Some "thread"))))).
Proof.
  split; [reflexivity|]. split; [reflexivity|].
  apply (sections_carry_closure_page_id (fun t => t) None (fun _ => "t1")
           scenario1 (initialState (Some "thread")) 0).
  reflexivity.
Defined.

(** X20.  The two query effects never withdraw readiness and never lose a
    section: a view that was ready stays ready, and every id of the section
    list before the effects is an id of the list after them. *)
Theorem query_effects_only_add (dataChanged errorChanged : bool)
    (q : SectionsQuery) (s : State) :
  let s' := effectsAfterRender dataChanged errorChanged q s in
  implb (isReady s) (isReady s') = true /\
  (list_to_set (SectionItem.id <$> default [] (sections s)) : gset string)
  ⊆ list_to_set (SectionItem.id <$> default [] (sections s')).
Proof.
  assert (Hmerge : forall (messages : list SectionItem.t)
                          (prev : option (list SectionItem.t)),
             (list_to_set (SectionItem.id <$> default [] prev) : gset string)
             ⊆ list_to_set
                 (SectionItem.id <$> default [] (mergeSections messages prev))).
  { intros messages prev k Hk. apply elem_of_list_to_set in Hk.
    apply elem_of_list_to_set.
    apply list_elem_of_fmap in Hk as (z & -> & Hz).
    apply (uniqBy_keeps_keys SectionItem.id). apply elem_of_app. by left. }
  unfold effectsAfterRender, sectionsErrorEffect, sectionsDataEffect.
  destruct dataChanged, errorChanged, (pageSectionsStale q),
    (pageSectionData q) as [d|], (isReady s) eqn:Hr,
    (bool_decide (is_Some (pageSectionsError q))); simpl;
    rewrite ?Hr; simpl; try (split; done);
    destruct (hasNextPage (pageInfo d) && truthy (endCursor (pageInfo d)));
    destruct (negb (length (edges d) =? 0)); simpl; rewrite ?Hr;
    split; try done; apply Hmerge.
Qed.
